(** * Data acquisition client (src/acquisition/client.py)

    A shallow embedding of [Client]: the object attributes as a record, each
    method as a computation in a small state-and-exception monad, and the
    three threads of control (the caller, the acquisition process and the
    processing thread) as atomic blocks that a schedule interleaves.  Blocking
    library calls ([Queue.put], [Queue.get], [join]) are the points where the
    blocks are cut. *)

From Stdlib Require Import ZArith QArith List Bool String Lia.
Import ListNotations.
Open Scope Z_scope.

(** ** Python values and exceptions *)

Inductive exn : Type :=
| AttributeError (attr : string)
| IndexError
| TypeError
| ZeroDivisionError
| AssertionError
| DeviceError.

(** Outcome of a block of code: a value, an uncaught exception, or a call that
    cannot return yet (a full queue, an empty queue, a live worker joined). *)
Inductive result (A : Type) : Type :=
| Ok (a : A)
| Raise (e : exn)
| Block.
Arguments Ok {A} a.
Arguments Raise {A} e.
Arguments Block {A}.

(** [l[-1]] on a Python list. *)
Definition index_last (l : list Z) : result Z :=
  match rev l with
  | [] => Raise IndexError
  | x :: _ => Ok x
  end.

(** [a / b] under [from __future__ import division], for an int [a] and a
    sample rate that is an int or [None].  The quotient is kept exact. *)
Definition truediv (a : Z) (b : option Z) : result Q :=
  match b with
  | None => Raise TypeError
  | Some z => if z =? 0 then Raise ZeroDivisionError
              else Ok (inject_Z a / inject_Z z)%Q
  end.

(** ** Collaborators *)

(** The record, device, buffer and processor modules are imported by
    client.py and are not among the sources.  Their calls are taken to
    succeed, apart from [read_data], which may raise, and [process], which
    may never return; each call leaves an event in the log. *)

(** Modelled from the spec: the [record] module is not part of the sources.
    The constructor call [Record(data, sample)] and the reads [record.data],
    [record.timestamp] fix two positional fields; the second one carries the
    producer's sequence counter.  Samples are integers. *)
Record record : Type := Record_ { data : list Z; timestamp : Z }.

(** What one call of [device.read_data()] does: return a sample vector,
    return [None], or raise. *)
Inductive read_outcome : Type :=
| Returned (d : option (list Z))
| Raised.

(** Modelled from the spec: the device classes are not part of the sources.
    Static metadata [name], [fs] ([None] when no rate is declared),
    [channels]; [read_data n] is the outcome of the [n]-th call of
    [read_data()], counted from 0. *)
Record Device : Type := mkDevice {
  name : string;
  fs : option Z;
  channels : list string;
  read_data : nat -> read_outcome
}.

(** Truth value of [data] in [while ... and data]. *)
Definition truthy (d : option (list Z)) : option (list Z) :=
  match d with
  | Some (x :: l) => Some (x :: l)
  | _ => None
  end.

(** [multiprocessing.Queue(maxsize)]: FIFO, oldest item first; a [maxsize]
    that is not positive means no bound. *)
Record Queue : Type := mkQueue { maxsize : Z; items : list record }.

Definition empty (q : Queue) : bool :=
  match items q with [] => true | _ :: _ => false end.

Definition full (q : Queue) : bool :=
  (0 <? maxsize q) && (maxsize q <=? Z.of_nat (List.length (items q))).

(** Modelled from the spec: the [buffer] module is not part of the sources.
    An archive of records with [append], [all], [len] and [close]. *)
Record Buffer : Type := mkBuffer {
  buf_channels : list string;
  archive_name : string;
  contents : list record;
  closed : bool
}.

Definition Buffer_new (chs : list string) (nm : string) : Buffer :=
  mkBuffer chs nm [] false.
Definition Buffer_append (b : Buffer) (r : record) : Buffer :=
  mkBuffer (buf_channels b) (archive_name b) (contents b ++ [r]) (closed b).
Definition Buffer_all (b : Buffer) : list record := contents b.
Definition Buffer_len (b : Buffer) : Z := Z.of_nat (List.length (contents b)).
Definition Buffer_close (b : Buffer) : Buffer :=
  mkBuffer (buf_channels b) (archive_name b) (contents b) true.

(** Modelled from the spec: the [processor] module is not part of the sources.
    A scoped sink; [written] lists the [(data, timestamp)] pairs passed to
    [process], oldest first. *)
Record FileWriter : Type := mkFileWriter {
  fw_filename : string;
  fw_device_name : string;
  fw_fs : option Z;
  fw_channels : list string;
  entered : bool;
  written : list (list Z * Z)
}.

Definition FileWriter_new (f d : string) (rate : option Z) (chs : list string)
  : FileWriter := mkFileWriter f d rate chs false [].
Definition FileWriter_enter (p : FileWriter) : FileWriter :=
  mkFileWriter (fw_filename p) (fw_device_name p) (fw_fs p) (fw_channels p)
               true (written p).
Definition FileWriter_exit (p : FileWriter) : FileWriter :=
  mkFileWriter (fw_filename p) (fw_device_name p) (fw_fs p) (fw_channels p)
               false (written p).
Definition FileWriter_process (p : FileWriter) (d : list Z) (ts : Z)
  : FileWriter :=
  mkFileWriter (fw_filename p) (fw_device_name p) (fw_fs p) (fw_channels p)
               (entered p) (written p ++ [(d, ts)]).

(** ** Workers *)

(** [_StoppableProcess] and [_StoppableThread]: a body, here the point it has
    reached, and the [_stopper] event. *)
Record Stoppable (PC : Type) : Type := mkStoppable {
  at_pc : PC;
  _stopper : bool
}.
Arguments mkStoppable {PC} _ _.
Arguments at_pc {PC} _.
Arguments _stopper {PC} _.

Definition _StoppableProcess (PC : Type) : Type := Stoppable PC.
Definition _StoppableThread (PC : Type) : Type := Stoppable PC.

Definition stop {PC} (w : Stoppable PC) : Stoppable PC :=
  mkStoppable (at_pc w) true.
Definition running {PC} (w : Stoppable PC) : bool := negb (_stopper w).
Definition stopped {PC} (w : Stoppable PC) : bool := _stopper w.

(** Control points of [_acquisition_loop]. *)
Inductive acq_pc : Type :=
| AcqStart (streaming : bool)   (* spawned; [streaming] is the worker's copy
                                   of [_is_streaming] taken at the spawn *)
| AcqLoop (d : option (list Z)) (sample : Z)   (* at the [while] test *)
| AcqPut (d : list Z) (sample : Z)             (* inside [put] *)
| AcqDone
| AcqFailed (e : exn).

(** Control points of [_process_loop]. *)
Inductive proc_pc : Type :=
| ProcStart
| ProcLoop (wait : Z)     (* at the [while] test *)
| ProcGet (wait : Z)      (* inside [get(True, wait)] *)
| ProcStuck               (* inside a [process] call that never returns *)
| ProcDone
| ProcFailed (e : exn).

(** Control points of the calling thread. *)
Inductive main_pc : Type :=
| MReady                      (* between two calls on the client *)
| MStopJoinAcq                (* [stop_acquisition], in [_acq_process.join()] *)
| MStopDrain (counter : Z)    (* at the [while] test of its drain loop *)
| MStopJoinProc               (* in [_process_thread.join()] *)
| MRaised (e : exn).

Definition acq_terminated (pc : acq_pc) : bool :=
  match pc with AcqDone | AcqFailed _ => true | _ => false end.

Definition proc_terminated (pc : proc_pc) : bool :=
  match pc with ProcDone | ProcFailed _ => true | _ => false end.

(** ** Observable effects, newest first *)

Inductive event : Type :=
| EvConnect
| EvAcquisitionInit
| EvDisconnect
| EvSpawnAcq
| EvSpawnProc
| EvNewBuffer
| EvNewProcessor
| EvPut (r : record)
| EvGet (r : record)
| EvAppend (r : record)
| EvProcess (d : list Z) (ts : Z)
| EvSleep
| EvBufClose.

(** ** The client object *)

(** Attributes assigned in [__init__] are plain fields; those first assigned
    in [start_acquisition] are options, [None] meaning that the attribute does
    not exist yet.  [_buf] is also compared with Python's [None] by the
    methods, so its value, once the attribute exists, is itself an option:
    [Some None] is an attribute holding [None], [Some (Some b)] one holding a
    Buffer.  [device_reads] counts the calls of [read_data()] made so far and
    [main] is the caller's control point. *)
Record Client : Type := mkClient {
  _device : Device;
  device_reads : nat;
  _processor_name : string;
  _buffer_name : string;
  _is_streaming : bool;
  _is_calibrated : bool;
  offset : Q;
  _initial_wait : Z;
  _process_queue : Queue;
  _acq_process : option (_StoppableProcess acq_pc);
  _buf : option (option Buffer);
  _processor : option FileWriter;
  _process_thread : option (_StoppableThread proc_pc);
  main : main_pc;
  log : list event
}.

Definition set_device_reads (n : nat) (c : Client) : Client :=
  mkClient (_device c) n (_processor_name c) (_buffer_name c)
    (_is_streaming c) (_is_calibrated c) (offset c) (_initial_wait c)
    (_process_queue c) (_acq_process c) (_buf c) (_processor c)
    (_process_thread c) (main c) (log c).
Definition set_is_streaming (b : bool) (c : Client) : Client :=
  mkClient (_device c) (device_reads c) (_processor_name c) (_buffer_name c)
    b (_is_calibrated c) (offset c) (_initial_wait c)
    (_process_queue c) (_acq_process c) (_buf c) (_processor c)
    (_process_thread c) (main c) (log c).
Definition set_is_calibrated (b : bool) (c : Client) : Client :=
  mkClient (_device c) (device_reads c) (_processor_name c) (_buffer_name c)
    (_is_streaming c) b (offset c) (_initial_wait c)
    (_process_queue c) (_acq_process c) (_buf c) (_processor c)
    (_process_thread c) (main c) (log c).
Definition set_offset (q : Q) (c : Client) : Client :=
  mkClient (_device c) (device_reads c) (_processor_name c) (_buffer_name c)
    (_is_streaming c) (_is_calibrated c) q (_initial_wait c)
    (_process_queue c) (_acq_process c) (_buf c) (_processor c)
    (_process_thread c) (main c) (log c).
Definition set_process_queue (q : Queue) (c : Client) : Client :=
  mkClient (_device c) (device_reads c) (_processor_name c) (_buffer_name c)
    (_is_streaming c) (_is_calibrated c) (offset c) (_initial_wait c)
    q (_acq_process c) (_buf c) (_processor c)
    (_process_thread c) (main c) (log c).
Definition set_acq_process (w : option (Stoppable acq_pc)) (c : Client)
  : Client :=
  mkClient (_device c) (device_reads c) (_processor_name c) (_buffer_name c)
    (_is_streaming c) (_is_calibrated c) (offset c) (_initial_wait c)
    (_process_queue c) w (_buf c) (_processor c)
    (_process_thread c) (main c) (log c).
Definition set_buf (b : option (option Buffer)) (c : Client) : Client :=
  mkClient (_device c) (device_reads c) (_processor_name c) (_buffer_name c)
    (_is_streaming c) (_is_calibrated c) (offset c) (_initial_wait c)
    (_process_queue c) (_acq_process c) b (_processor c)
    (_process_thread c) (main c) (log c).
Definition set_processor (p : option FileWriter) (c : Client) : Client :=
  mkClient (_device c) (device_reads c) (_processor_name c) (_buffer_name c)
    (_is_streaming c) (_is_calibrated c) (offset c) (_initial_wait c)
    (_process_queue c) (_acq_process c) (_buf c) p
    (_process_thread c) (main c) (log c).
Definition set_process_thread (w : option (Stoppable proc_pc)) (c : Client)
  : Client :=
  mkClient (_device c) (device_reads c) (_processor_name c) (_buffer_name c)
    (_is_streaming c) (_is_calibrated c) (offset c) (_initial_wait c)
    (_process_queue c) (_acq_process c) (_buf c) (_processor c)
    w (main c) (log c).
Definition set_main (m : main_pc) (c : Client) : Client :=
  mkClient (_device c) (device_reads c) (_processor_name c) (_buffer_name c)
    (_is_streaming c) (_is_calibrated c) (offset c) (_initial_wait c)
    (_process_queue c) (_acq_process c) (_buf c) (_processor c)
    (_process_thread c) m (log c).
Definition emit (e : event) (c : Client) : Client :=
  mkClient (_device c) (device_reads c) (_processor_name c) (_buffer_name c)
    (_is_streaming c) (_is_calibrated c) (offset c) (_initial_wait c)
    (_process_queue c) (_acq_process c) (_buf c) (_processor c)
    (_process_thread c) (main c) (e :: log c).

(** ** The monad of method bodies *)

Definition M (A : Type) : Type := Client -> Client * result A.

Definition ret {A} (a : A) : M A := fun c => (c, Ok a).
Definition raise {A} (e : exn) : M A := fun c => (c, Raise e).
Definition block {A} : M A := fun c => (c, Block).
Definition bind {A B} (m : M A) (k : A -> M B) : M B :=
  fun c => match m c with
           | (c', Ok a) => k a c'
           | (c', Raise e) => (c', Raise e)
           | (c', Block) => (c', Block)
           end.
Definition gets {A} (f : Client -> A) : M A := fun c => (c, Ok (f c)).
Definition modify (f : Client -> Client) : M unit := fun c => (f c, Ok tt).
Definition lift {A} (r : result A) : M A := fun c => (c, r).

(** Reading an attribute that may not have been assigned yet. *)
Definition attr {A} (nm : string) (f : Client -> option A) : M A :=
  fun c => match f c with
           | Some a => (c, Ok a)
           | None => (c, Raise (AttributeError nm))
           end.

Notation "x <- m ;; k" := (bind m (fun x => k))
  (at level 61, m at next level, right associativity).
Notation "m ;;; k" := (bind m (fun _ => k))
  (at level 61, right associativity).

(** ** [Client.__init__] *)

Definition __init__ (device : Device) (processor_name buffer_name : string)
  : Client :=
  let initial_wait := 2 in
  let multiplier :=
      match fs device with
      | Some f => if f =? 0 then 100 else f
      | None => 100
      end in
  let maxsize := (initial_wait + 1) * multiplier in
  mkClient device 0 processor_name buffer_name
           false false 0%Q initial_wait (mkQueue maxsize [])
           None None None None MReady [].

Definition Client_new (device : Device) : Client :=
  __init__ device "rawdata.csv"%string "buffer.db"%string.

(** ** The queue operations used by the two loops *)

(** [self._process_queue.put(r)]: blocks while the queue is full. *)
Definition queue_put (r : record) : M unit :=
  q <- gets _process_queue ;;
  if full q then block
  else
    modify (set_process_queue (mkQueue (maxsize q) (items q ++ [r]))) ;;;
    modify (emit (EvPut r)).

(** [self._process_queue.get(True, wait)] when an item arrives in time. *)
Definition queue_get : M record :=
  q <- gets _process_queue ;;
  match items q with
  | [] => block
  | r :: rest =>
      modify (set_process_queue (mkQueue (maxsize q) rest)) ;;;
      modify (emit (EvGet r)) ;;;
      ret r
  end.

(** ** [Client.start_acquisition] *)

Definition start_acquisition : M unit :=
  streaming <- gets _is_streaming ;;
  if negb streaming then
    modify (set_is_streaming true) ;;;
    forked <- gets _is_streaming ;;
    modify (set_acq_process (Some (mkStoppable (AcqStart forked) false))) ;;;
    modify (emit EvSpawnAcq) ;;;
    dev <- gets _device ;;
    bname <- gets _buffer_name ;;
    modify (set_buf (Some (Some (Buffer_new (channels dev) bname)))) ;;;
    modify (emit EvNewBuffer) ;;;
    pname <- gets _processor_name ;;
    modify (set_processor
              (Some (FileWriter_new pname (name dev) (fs dev)
                                    (channels dev)))) ;;;
    modify (emit EvNewProcessor) ;;;
    modify (set_process_thread (Some (mkStoppable ProcStart false))) ;;;
    modify (emit EvSpawnProc)
  else ret tt.

(** ** [Client._acquisition_loop] *)

(** [device.read_data()]. *)
Definition device_read : M (option (list Z)) :=
  dev <- gets _device ;;
  n <- gets device_reads ;;
  modify (set_device_reads (S n)) ;;;
  match read_data dev n with
  | Returned d => ret d
  | Raised => raise DeviceError
  end.

(** [try: m except: h], the bare [except] of the loop body. *)
Definition try_except {A} (m : M A) (h : M A) : M A :=
  fun c => match m c with
           | (c', Raise _) => h c'
           | other => other
           end.

(** The body of the method, from one control point to the next: a step ends
    where the worker tests its stop flag or may have to wait in [put]. *)
Definition _acquisition_loop (pc : acq_pc) : M acq_pc :=
  match pc with
  | AcqStart streaming =>
      modify (emit EvConnect) ;;;
      modify (emit EvAcquisitionInit) ;;;
      let sample := 0 in
      if streaming then
        d <- device_read ;;
        ret (AcqLoop d sample)
      else ret AcqDone
  | AcqLoop d sample =>
      w <- attr "_acq_process" _acq_process ;;
      if running w then
        match truthy d with
        | Some v => ret (AcqPut v sample)
        | None => ret AcqDone
        end
      else ret AcqDone
  | AcqPut d sample =>
      queue_put (Record_ d sample) ;;;
      try_except
        (d' <- device_read ;;
         ret (AcqLoop d' (sample + 1)))
        (ret AcqDone)
  | AcqDone => block
  | AcqFailed _ => block
  end.

(** ** [Client._process_loop] *)

(** Method calls on [self._buf]. *)
Definition the_buf : M Buffer :=
  v <- attr "_buf" _buf ;;
  match v with
  | Some b => ret b
  | None => raise (AttributeError "NoneType")
  end.

(** Lines 148-151: the search for the first trigger. *)
Definition calibration_check (r : record) : M unit :=
  calibrated <- gets _is_calibrated ;;
  if negb calibrated then
    x <- lift (index_last (data r)) ;;
    if 0 <? x then
      modify (set_is_calibrated true) ;;;
      dev <- gets _device ;;
      q <- lift (truediv (timestamp r) (fs dev)) ;;
      modify (set_offset q)
    else ret tt
  else ret tt.

(** Leaving the [with self._processor as p] block. *)
Definition exit_processor (c : Client) : Client :=
  match _processor c with
  | Some p => set_processor (Some (FileWriter_exit p)) c
  | None => c
  end.

Section Sinks.

(** The behaviour of the sinks, which the sources do not contain:
    [process_blocks d ts] tells whether the call [p.process(d, ts)] never
    returns, and [Buffer_query] is the archive's range query. *)
Variable process_blocks : list Z -> Z -> bool.
Variable Buffer_query : Buffer -> Z -> option Z -> list record.

(** The body of the method, cut at the [while] test and at [get]. *)
Definition _process_loop (pc : proc_pc) : M proc_pc :=
  match pc with
  | ProcStart =>
      th <- attr "_process_thread" _process_thread ;;
      if running th then
        p <- attr "_processor" _processor ;;
        modify (set_processor (Some (FileWriter_enter p))) ;;;
        wait <- gets _initial_wait ;;
        ret (ProcLoop wait)
      else raise AssertionError
  | ProcLoop wait =>
      th <- attr "_process_thread" _process_thread ;;
      if running th then ret (ProcGet wait)
      else modify exit_processor ;;; ret ProcDone
  | ProcGet _ =>
      r <- queue_get ;;
      calibration_check r ;;;
      let wait := 2 in
      b <- the_buf ;;
      modify (set_buf (Some (Some (Buffer_append b r)))) ;;;
      modify (emit (EvAppend r)) ;;;
      p <- attr "_processor" _processor ;;
      modify (set_processor
                (Some (FileWriter_process p (data r) (timestamp r)))) ;;;
      modify (emit (EvProcess (data r) (timestamp r))) ;;;
      if process_blocks (data r) (timestamp r) then ret ProcStuck
      else ret (ProcLoop wait)
  | ProcStuck => block
  | ProcDone => block
  | ProcFailed _ => block
  end.

(** [get(True, wait)] raising [Empty]: the [except Empty: break] path. *)
Definition _process_loop_timeout (pc : proc_pc) : M proc_pc :=
  match pc with
  | ProcGet _ =>
      q <- gets _process_queue ;;
      if empty q then modify exit_processor ;;; ret ProcDone
      else block
  | _ => block
  end.

(** ** [Client.stop_acquisition] *)

(** Lines 189-195, up to the call of [_acq_process.join()]. *)
Definition stop_acquisition : M main_pc :=
  modify (set_is_streaming false) ;;;
  modify (emit EvDisconnect) ;;;
  w <- attr "_acq_process" _acq_process ;;
  modify (set_acq_process (Some (stop w))) ;;;
  ret MStopJoinAcq.

(** The rest of [stop_acquisition], from one blocking call to the next. *)
Definition stop_acquisition_next (pc : main_pc) : M main_pc :=
  match pc with
  | MStopJoinAcq =>
      w <- attr "_acq_process" _acq_process ;;
      if acq_terminated (at_pc w) then
        let counter := 0 in
        ret (MStopDrain counter)
      else block
  | MStopDrain counter =>
      q <- gets _process_queue ;;
      initial_wait <- gets _initial_wait ;;
      if negb (empty q) && (counter <? initial_wait * 100) then
        modify (emit EvSleep) ;;;
        ret (MStopDrain (counter + 1))
      else
        th <- attr "_process_thread" _process_thread ;;
        modify (set_process_thread (Some (stop th))) ;;;
        ret MStopJoinProc
  | MStopJoinProc =>
      th <- attr "_process_thread" _process_thread ;;
      if proc_terminated (at_pc th) then
        b <- the_buf ;;
        modify (set_buf (Some (Some (Buffer_close b)))) ;;;
        modify (emit EvBufClose) ;;;
        ret MReady
      else block
  | MReady => block
  | MRaised _ => block
  end.

(** ** [Client.get_data] and [Client.get_data_len] *)

Definition get_data (start end_ : option Z) : M (list record) :=
  v <- attr "_buf" _buf ;;
  match v with
  | None => ret []
  | Some b =>
      match start with
      | None => ret (Buffer_all b)
      | Some t => ret (Buffer_query b t end_)
      end
  end.

Definition get_data_len : M Z :=
  v <- attr "_buf" _buf ;;
  match v with
  | None => ret 0
  | Some b => ret (Buffer_len b)
  end.

(** ** Interleaving *)

(** One action is one atomic block of one thread of control.  Time is not
    measured: [sleep] is an event, and the timeout of [get] is an action of
    its own, enabled whenever the queue is empty. *)

Inductive action : Type :=
| CallStart      (* the caller runs [start_acquisition()] *)
| CallStop       (* the caller enters [stop_acquisition()] *)
| MainStep       (* the caller's pending call moves on *)
| AcqStep        (* the acquisition process moves on *)
| ProcStep       (* the processing thread moves on *)
| ProcTimeout.   (* [get] gives up on the empty queue *)

Definition set_acq_pc (pc : acq_pc) (c : Client) : Client :=
  match _acq_process c with
  | Some w => set_acq_process (Some (mkStoppable pc (_stopper w))) c
  | None => c
  end.

Definition set_proc_pc (pc : proc_pc) (c : Client) : Client :=
  match _process_thread c with
  | Some w => set_process_thread (Some (mkStoppable pc (_stopper w))) c
  | None => c
  end.

(** An exception leaves the [with] block, entered after [ProcStart]. *)
Definition proc_fail (from : proc_pc) (e : exn) (c : Client) : Client :=
  match from with
  | ProcStart => set_proc_pc (ProcFailed e) c
  | _ => set_proc_pc (ProcFailed e) (exit_processor c)
  end.

Definition step (a : action) (c : Client) : option Client :=
  match a with
  | CallStart =>
      match main c with
      | MReady =>
          match start_acquisition c with
          | (c', Ok _) => Some c'
          | (c', Raise e) => Some (set_main (MRaised e) c')
          | (_, Block) => None
          end
      | _ => None
      end
  | CallStop =>
      match main c with
      | MReady =>
          match stop_acquisition c with
          | (c', Ok pc) => Some (set_main pc c')
          | (c', Raise e) => Some (set_main (MRaised e) c')
          | (_, Block) => None
          end
      | _ => None
      end
  | MainStep =>
      match stop_acquisition_next (main c) c with
      | (c', Ok pc) => Some (set_main pc c')
      | (c', Raise e) => Some (set_main (MRaised e) c')
      | (_, Block) => None
      end
  | AcqStep =>
      match _acq_process c with
      | Some w =>
          match _acquisition_loop (at_pc w) c with
          | (c', Ok pc) => Some (set_acq_pc pc c')
          | (c', Raise e) => Some (set_acq_pc (AcqFailed e) c')
          | (_, Block) => None
          end
      | None => None
      end
  | ProcStep =>
      match _process_thread c with
      | Some w =>
          match _process_loop (at_pc w) c with
          | (c', Ok pc) => Some (set_proc_pc pc c')
          | (c', Raise e) => Some (proc_fail (at_pc w) e c')
          | (_, Block) => None
          end
      | None => None
      end
  | ProcTimeout =>
      match _process_thread c with
      | Some w =>
          match _process_loop_timeout (at_pc w) c with
          | (c', Ok pc) => Some (set_proc_pc pc c')
          | (c', Raise e) => Some (proc_fail (at_pc w) e c')
          | (_, Block) => None
          end
      | None => None
      end
  end.

(** A schedule runs while every action in it is enabled. *)
Fixpoint run (sched : list action) (c : Client) : option Client :=
  match sched with
  | [] => Some c
  | a :: rest =>
      match step a c with
      | Some c' => run rest c'
      | None => None
      end
  end.

End Sinks.

(** ** Histories read off the log, oldest first *)

Fixpoint enqueued (l : list event) : list record :=
  match l with
  | [] => []
  | EvPut r :: l' => enqueued l' ++ [r]
  | _ :: l' => enqueued l'
  end.

Fixpoint dequeued (l : list event) : list record :=
  match l with
  | [] => []
  | EvGet r :: l' => dequeued l' ++ [r]
  | _ :: l' => dequeued l'
  end.

(** The records put by the acquisition loop spawned last. *)
Fixpoint session_puts (l : list event) : list record :=
  match l with
  | [] => []
  | EvSpawnAcq :: _ => []
  | EvPut r :: l' => session_puts l' ++ [r]
  | _ :: l' => session_puts l'
  end.

(** The sleeps of the call of [stop_acquisition] entered last. *)
Fixpoint drain_sleeps (l : list event) : Z :=
  match l with
  | [] => 0
  | EvDisconnect :: _ => 0
  | EvSleep :: l' => drain_sleeps l' + 1
  | _ :: l' => drain_sleeps l'
  end.

(** The trigger test of the calibration check. *)
Definition trigger_fired (r : record) : bool :=
  match index_last (data r) with
  | Ok x => 0 <? x
  | _ => false
  end.


(** ** Predicates used in the statements *)

(** The queue is FIFO: what was taken out, followed by what is still in the
    queue, is what was put in, in that order. *)
Definition fifo (c : Client) : Prop :=
  dequeued (log c) ++ items (_process_queue c) = enqueued (log c).

(** The second fields of the records are 0, 1, 2, ... *)
Definition contiguous (l : list record) : Prop :=
  map timestamp l = map Z.of_nat (seq 0 (List.length l)).

(** The producer's counter is the number of records it has put. *)
Definition numbering (c : Client) : Prop :=
  contiguous (session_puts (log c)) /\
  match _acq_process c with
  | Some w =>
      match at_pc w with
      | AcqStart _ => session_puts (log c) = []
      | AcqLoop _ k => k = Z.of_nat (List.length (session_puts (log c)))
      | AcqPut _ k => k = Z.of_nat (List.length (session_puts (log c)))
      | _ => True
      end
  | None => True
  end.

(** Attributes that no step assigns. *)
Definition constants (c c' : Client) : Prop :=
  _device c' = _device c /\ _initial_wait c' = _initial_wait c /\
  _processor_name c' = _processor_name c /\
  _buffer_name c' = _buffer_name c /\
  maxsize (_process_queue c') = maxsize (_process_queue c).

(** The first dequeued record whose last sample is positive. *)
Definition first_trigger (l : list record) : option record :=
  find trigger_fired l.

(** What the calibration check leaves in [offset] when [r] is the first
    trigger record: the quotient, or the initial 0 when the division
    raises. *)
Definition offset_for (dev : Device) (r : record) : Q :=
  match truediv (timestamp r) (fs dev) with
  | Ok q => q
  | _ => 0%Q
  end.

(** The calibration attributes as a function of the records dequeued so
    far. *)
Definition calibration (c : Client) : Prop :=
  match first_trigger (dequeued (log c)) with
  | None => _is_calibrated c = false /\ offset c = 0%Q
  | Some r => _is_calibrated c = true /\ offset c = offset_for (_device c) r
  end.

(** The four attributes that [start_acquisition] assigns exist together. *)
Definition wired (c : Client) : Prop :=
  match _acq_process c, _process_thread c, _buf c, _processor c with
  | None, None, None, None => True
  | Some _, Some _, Some (Some _), Some _ => True
  | _, _, _, _ => False
  end.

Definition acq_joined (c : Client) : Prop :=
  match _acq_process c with
  | Some w => acq_terminated (at_pc w) = true
  | None => False
  end.

Definition proc_cancelled (c : Client) : Prop :=
  match _process_thread c with
  | Some th => stopped th = true
  | None => False
  end.

Definition proc_joined (c : Client) : Prop :=
  match _process_thread c with
  | Some th => proc_terminated (at_pc th) = true
  | None => False
  end.

(** Where the caller stands in [stop_acquisition], against the log. *)
Definition lifecycle (c : Client) : Prop :=
  _initial_wait c = 2 /\
  0 <= drain_sleeps (log c) <= 200 /\
  match main c with
  | MStopJoinAcq => drain_sleeps (log c) = 0 /\ _is_streaming c = false
  | MStopDrain k =>
      k = drain_sleeps (log c) /\ acq_joined c /\ _is_streaming c = false
  | MStopJoinProc =>
      acq_joined c /\ proc_cancelled c /\ _is_streaming c = false
  | _ => True
  end.

(** The caller waits in [_process_thread.join()] for a worker that is inside
    a [process] call that never returns; the buffer is still open. *)
Definition wedged (c : Client) : Prop :=
  main c = MStopJoinProc /\
  (exists th, _process_thread c = Some th /\ at_pc th = ProcStuck) /\
  (exists b, _buf c = Some (Some b) /\ closed b = false).

(** A call of [stop_acquisition] in progress can still return. *)
Definition stop_can_return (pb : list Z -> Z -> bool) (c : Client) : Prop :=
  exists sched c', run pb sched c = Some c' /\ main c' = MReady.

(** The records a producer makes of [samples]: the [i]-th one carries the
    [i]-th sample and the number [i]. *)
Definition numbered_upto (samples : list (list Z)) (k : nat) : list record :=
  map (fun i => Record_ (nth i samples []) (Z.of_nat i)) (seq 0 k).

Definition numbered (samples : list (list Z)) : list record :=
  numbered_upto samples (List.length samples).

(** A device that delivers [samples], each a non-empty vector, and then
    reports the end of the stream. *)
Definition device_yields (dev : Device) (samples : list (list Z)) : Prop :=
  (forall i, (i < List.length samples)%nat ->
             nth i samples [] <> [] /\
             read_data dev i = Returned (Some (nth i samples []))) /\
  read_data dev (List.length samples) = Returned None.

(** The calibration check cannot raise on [samples]: the device declares a
    non-zero rate, or no sample has a positive last element. *)
Definition calibration_safe (dev : Device) (samples : list (list Z)) : Prop :=
  (exists f, fs dev = Some f /\ f <> 0) \/
  (forall d, In d samples -> trigger_fired (Record_ d 0) = false).

(** The worker's control points, [None] when the attribute does not exist. *)
Definition acq_at (c : Client) : option acq_pc :=
  option_map at_pc (_acq_process c).
Definition proc_at (c : Client) : option proc_pc :=
  option_map at_pc (_process_thread c).

(** What the buffer holds and what the processor was given. *)
Definition persisted (c : Client) : list record :=
  match _buf c with
  | Some (Some b) => contents b
  | _ => []
  end.
Definition forwarded (c : Client) : list (list Z * Z) :=
  match _processor c with
  | Some p => written p
  | None => []
  end.

(** The producer and the consumer of one sample each take two steps. *)
Definition one_sample : list action := [AcqStep; AcqStep; ProcStep; ProcStep].

Fixpoint cycles (n : nat) : list action :=
  match n with
  | O => []
  | S n' => cycles n' ++ one_sample
  end.

(** A complete session: start, both workers up, one cycle per sample, the
    producer sees the end of the stream, the consumer's [get] times out. *)
Definition session (n : nat) : list action :=
  [CallStart; AcqStep; ProcStep] ++ cycles n ++
  [AcqStep; ProcStep; ProcTimeout].

(** The state between two cycles of a session on [samples], after [k] of
    them: the producer holds the outcome of its read number [k], the queue is
    empty, and the [k] first records went through the queue into both
    sinks. *)
Definition mid (dev : Device) (samples : list (list Z)) (k : nat)
  (c : Client) : Prop :=
  _device c = dev /\ device_reads c = S k /\
  _acq_process c =
    Some (mkStoppable
            (AcqLoop (if (k <? List.length samples)%nat
                      then Some (nth k samples []) else None)
                     (Z.of_nat k)) false) /\
  (exists w, _process_thread c = Some (mkStoppable (ProcLoop w) false)) /\
  items (_process_queue c) = [] /\
  main c = MReady /\
  enqueued (log c) = numbered_upto samples k /\
  dequeued (log c) = numbered_upto samples k /\
  persisted c = numbered_upto samples k /\
  forwarded c =
    map (fun r => (data r, timestamp r)) (numbered_upto samples k) /\
  (exists b, _buf c = Some (Some b)) /\ (exists p, _processor c = Some p).

(** ** Concrete devices, sinks and schedules *)

(** Sinks whose [process] call always returns, or never does. *)
Definition returns : list Z -> Z -> bool := fun _ _ => false.
Definition never_returns : list Z -> Z -> bool := fun _ _ => true.

(** Three samples, the second with a positive last element, at rate 2. *)
Definition three_samples : list (list Z) := [[0]; [5; 1]; [7]].

Definition demo_device : Device :=
  mkDevice "demo" (Some 2) []
    (fun n => match nth_error three_samples n with
              | Some d => Returned (Some d)
              | None => Returned None
              end).

Definition demo_schedule : list action :=
  [CallStart; AcqStep; ProcStep] ++ cycles 3.

(** One sample, then the end of the stream, at rate 300. *)
Definition plain_device : Device :=
  mkDevice "plain" (Some 300) []
    (fun n => match n with O => Returned (Some [0]) | _ => Returned None end).

(** A session, then [stop_acquisition] up to its last [join]. *)
Definition stop_schedule : list action :=
  session 1 ++ [CallStop; MainStep; MainStep].

(** The consumer enters [process] on the only sample; the caller then stops. *)
Definition wedge_schedule : list action :=
  [CallStart; AcqStep; AcqStep; AcqStep; AcqStep;
   ProcStep; ProcStep; ProcStep; CallStop; MainStep; MainStep].

(** A declared rate below 100. *)
Definition slow_device : Device :=
  mkDevice "slow" (Some 50) [] (fun _ => Returned None).

(** Every read raises. *)
Definition failing_device : Device :=
  mkDevice "failing" (Some 300) [] (fun _ => Raised).

(** No declared rate; the first sample carries a trigger. *)
Definition unrated_device : Device :=
  mkDevice "unrated" None []
    (fun n => match n with O => Returned (Some [1]) | _ => Returned None end).

(** The three samples again, from a device that declares no rate. *)
Definition unrated_demo_device : Device :=
  mkDevice "unrated demo" None []
    (fun n => match nth_error three_samples n with
              | Some d => Returned (Some d)
              | None => Returned None
              end).

(** A session up to the record that carries the trigger. *)
Definition trigger_schedule : list action :=
  [CallStart; AcqStep; ProcStep] ++ cycles 2.

(** The consumer's [get] times out before the first sample arrives; the
    producer then delivers its three samples and ends. *)
Definition starved_schedule : list action :=
  [CallStart; ProcStep; ProcStep; ProcTimeout] ++ repeat AcqStep 8.

(** A whole call of [stop_acquisition] whose drain loop runs to its bound. *)
Definition full_stop : list action := CallStop :: repeat MainStep 203.

(** The producer puts the first sample, the consumer is about to get it. *)
Definition unrated_schedule : list action :=
  [CallStart; AcqStep; AcqStep; AcqStep; ProcStep; ProcStep].

(** A consumer inside [get], handed a record with an empty vector. *)
Definition waiting_schedule : list action := [CallStart; ProcStep; ProcStep].
Definition empty_record : record := Record_ [] 0.

(** ** Proof automation: the cases of one step *)

Ltac unfold_bodies H :=
  cbv beta iota zeta delta
    [start_acquisition stop_acquisition stop_acquisition_next _acquisition_loop _process_loop
     _process_loop_timeout queue_put queue_get calibration_check device_read
     try_except the_buf attr bind gets modify ret raise block lift] in H.

Ltac simpl_fields H :=
  cbn [_device device_reads _processor_name _buffer_name _is_streaming
       _is_calibrated offset _initial_wait _process_queue _acq_process _buf
       _processor _process_thread main log
       set_device_reads set_is_streaming set_is_calibrated set_offset
       set_process_queue set_acq_process set_buf set_processor
       set_process_thread set_main emit
       at_pc _stopper maxsize items acq_terminated proc_terminated] in H.

Ltac simpl_goal :=
  cbn [_device device_reads _processor_name _buffer_name _is_streaming
       _is_calibrated offset _initial_wait _process_queue _acq_process _buf
       _processor _process_thread main log
       set_device_reads set_is_streaming set_is_calibrated set_offset
       set_process_queue set_acq_process set_buf set_processor
       set_process_thread set_main emit
       at_pc _stopper maxsize items stop stopped
       enqueued dequeued session_puts drain_sleeps
       acq_terminated proc_terminated option_map
       Buffer_new Buffer_append Buffer_close contents closed
       FileWriter_new FileWriter_enter FileWriter_exit FileWriter_process
       written].

Ltac break_match H :=
  match type of H with
  | context [match ?x with _ => _ end] =>
      lazymatch x with
      | context [match _ with _ => _ end] => fail
      | _ => destruct x eqn:?
      end
  end.

Ltac use_eqs H :=
  repeat match goal with
         | E : ?x = _ |- _ =>
             lazymatch E with H => fail | _ => idtac end;
             lazymatch type of H with context [x] => rewrite E in H end
         end.

Ltac use_eqs_goal :=
  repeat match goal with
         | E : ?x = _ |- context [?x] => rewrite E
         end.

Ltac break_match_goal :=
  match goal with
  | |- context [match ?x with _ => _ end] =>
      lazymatch x with
      | context [match _ with _ => _ end] => fail
      | _ => destruct x eqn:?
      end
  end.

Ltac simp_goal :=
  repeat (progress (simpl_goal; use_eqs_goal; cbv beta iota)).

(** Case analysis on every [match] of the goal, innermost first. *)
Ltac split_goal :=
  simp_goal; repeat (break_match_goal; simp_goal).

(** Case analysis on the attributes that the step wrappers test. *)
Ltac break_attr_goal :=
  match goal with
  | |- context [match _processor ?c with _ => _ end] =>
      destruct (_processor c) eqn:?
  | |- context [match _process_thread ?c with _ => _ end] =>
      destruct (_process_thread c) eqn:?
  | |- context [match _acq_process ?c with _ => _ end] =>
      destruct (_acq_process c) eqn:?
  end.

Ltac norm_goal :=
  unfold proc_fail, set_proc_pc, set_acq_pc, exit_processor;
  simp_goal; repeat (break_attr_goal; simp_goal).

Ltac simp_hyp H :=
  repeat (progress (simpl_fields H; use_eqs H; cbv beta iota in H)).

(** From [H : step pb a c = Some c'], one goal per path through the code,
    with [c'] replaced by the state that the path builds. *)
Ltac step_inv H :=
  unfold step in H; unfold_bodies H;
  simp_hyp H; repeat (break_match H; simp_hyp H);
  try discriminate H;
  match type of H with
  | Some ?x = Some ?y =>
      assert (x = y)
        by exact (f_equal (fun o => match o with Some z => z | None => x end) H)
  end;
  clear H; subst;
  norm_goal.

(** Evaluation of a schedule on a client given field by field. *)
Ltac run_compute :=
  cbv beta iota zeta delta
    [run step start_acquisition stop_acquisition stop_acquisition_next _acquisition_loop _process_loop
     _process_loop_timeout queue_put queue_get calibration_check device_read
     try_except the_buf attr bind gets modify ret raise block lift
     set_acq_pc set_proc_pc proc_fail exit_processor
     _device device_reads _processor_name _buffer_name _is_streaming
     _is_calibrated offset _initial_wait _process_queue _acq_process _buf
     _processor _process_thread main log
     set_device_reads set_is_streaming set_is_calibrated set_offset
     set_process_queue set_acq_process set_buf set_processor
     set_process_thread set_main emit
     at_pc _stopper maxsize items stop stopped running negb truthy
     one_sample __init__ app andb empty].

(** * The rest of the client *)

(** ** Histories of the sinks and of the device *)

(** The records appended to the buffer that was created last, oldest first. *)
Fixpoint session_appends (l : list event) : list record :=
  match l with
  | [] => []
  | EvNewBuffer :: _ => []
  | EvAppend r :: l' => session_appends l' ++ [r]
  | _ :: l' => session_appends l'
  end.

(** The records appended to any buffer, oldest first. *)
Fixpoint appended (l : list event) : list record :=
  match l with
  | [] => []
  | EvAppend r :: l' => appended l' ++ [r]
  | _ :: l' => appended l'
  end.

(** The arguments of the calls of [process], oldest first. *)
Fixpoint processed (l : list event) : list (list Z * Z) :=
  match l with
  | [] => []
  | EvProcess d ts :: l' => processed l' ++ [(d, ts)]
  | _ :: l' => processed l'
  end.

(** The number of calls of [device.connect()]. *)
Fixpoint connects (l : list event) : nat :=
  match l with
  | [] => O
  | EvConnect :: l' => S (connects l')
  | _ :: l' => connects l'
  end.

(** ** Further invariants *)

(** A bounded queue holds no more than its capacity. *)
Definition queue_bounded (c : Client) : Prop :=
  0 < maxsize (_process_queue c) ->
  Z.of_nat (List.length (items (_process_queue c)))
    <= maxsize (_process_queue c).

Definition nonempty (r : record) : Prop := data r <> [].

(** Only non-empty vectors are on their way to the consumer. *)
Definition well_fed (c : Client) : Prop :=
  Forall nonempty (items (_process_queue c)) /\
  Forall nonempty (enqueued (log c)) /\
  match acq_at c with
  | Some (AcqPut d _) => d <> []
  | _ => True
  end.

(** The exceptions that end the workers. *)
Definition failures (c : Client) : Prop :=
  match acq_at c with
  | Some (AcqFailed e) => e = DeviceError
  | _ => True
  end /\
  match proc_at c with
  | Some (ProcFailed e) =>
      e = AssertionError \/
      (e = TypeError /\ fs (_device c) = None) \/
      (e = ZeroDivisionError /\ fs (_device c) = Some 0)
  | _ => True
  end.

(** The sinks against the log. *)
Definition sinks (c : Client) : Prop :=
  persisted c = session_appends (log c) /\
  forwarded c = map (fun r => (data r, timestamp r)) (persisted c).

(** Every worker that ran has read one sample more than it has put. *)
Definition reads (c : Client) : Prop :=
  device_reads c =
    (List.length (enqueued (log c)) + connects (log c))%nat /\
  match acq_at c with
  | Some (AcqStart streaming) => streaming = true
  | _ => True
  end.

(** The processor is entered exactly while the thread is in its loop. *)
Definition in_loop (pc : proc_pc) : bool :=
  match pc with
  | ProcLoop _ | ProcGet _ | ProcStuck => true
  | _ => false
  end.

Definition scoped (c : Client) : Prop :=
  match _process_thread c, _processor c with
  | Some th, Some p => entered p = in_loop (at_pc th)
  | _, _ => True
  end.

Definition acq_cancelled (c : Client) : Prop :=
  match _acq_process c with
  | Some w => stopped w = true
  | None => False
  end.

Definition buffer_closed (c : Client) : Prop :=
  match _buf c with
  | Some (Some b) => closed b = true
  | _ => False
  end.

(** The session is over: both workers were cancelled and have terminated,
    and the buffer is closed. *)
Definition shut_down (c : Client) : Prop :=
  acq_cancelled c /\ acq_joined c /\ proc_cancelled c /\ proc_joined c /\
  buffer_closed c.

(** The session is on: no stop flag is set and the buffer is open. *)
Definition session_on (c : Client) : Prop :=
  match _acq_process c, _process_thread c, _buf c with
  | Some w, Some th, Some (Some b) =>
      running w = true /\ running th = true /\ closed b = false
  | _, _, _ => False
  end.

(** Where the caller stands, against the workers and the buffer. *)
Definition stop_state (c : Client) : Prop :=
  match main c with
  | MReady =>
      match _acq_process c with
      | None => _is_streaming c = false
      | Some _ => if _is_streaming c then session_on c else shut_down c
      end
  | MStopJoinAcq | MStopDrain _ | MStopJoinProc => acq_cancelled c
  | MRaised e => e = AttributeError "_acq_process" /\ _acq_process c = None
  end.

(** A closed buffer is never appended to: its consumer has terminated. *)
Definition sealed (c : Client) : Prop :=
  buffer_closed c -> acq_joined c /\ proc_joined c.

(** The timeout that the consumer passes to [get]. *)
Definition get_timeout (c : Client) : Prop :=
  match proc_at c with
  | Some (ProcLoop wait) | Some (ProcGet wait) => wait = 2
  | _ => True
  end.

(** The client was started at least once. *)
Definition started (c : Client) : Prop := _acq_process c <> None.

(** ** [Client.__enter__], [Client.__exit__] and [Client.cleanup] *)

(** [__enter__] returns [self], the client after the call. *)
Definition __enter__ : M unit := start_acquisition.

(** [__exit__(exc_type, exc_value, traceback)]: the three arguments, here the
    exception that left the [with] body, if any, are not read.  Like
    [stop_acquisition] the body runs up to its first blocking call. *)
Definition __exit__ (exc : option exn) : M main_pc := stop_acquisition.

Section Archive.

(** The truth value of a Buffer object in [if self._buf:], which the buffer
    module decides. *)
Variable Buffer_bool : Buffer -> bool.

(** [cleanup()].  Python returns [None]; the result here is the buffer whose
    [cleanup()] method is called, if any. *)
Definition cleanup : M (option Buffer) :=
  v <- attr "_buf" _buf ;;
  match v with
  | None => ret None
  | Some b => if Buffer_bool b then ret (Some b) else ret None
  end.

End Archive.

(** [stop_acquisition] overtakes both workers: it is entered right after
    [start_acquisition], the acquisition process then runs to its end, and
    the processing thread takes its first step after its stop flag is set. *)
Definition overtaking_schedule : list action :=
  [CallStart; CallStop; AcqStep; AcqStep; MainStep; MainStep; ProcStep;
   MainStep].

(** The producer is inside [put] with the first sample. *)
Definition put_schedule : list action := [CallStart; AcqStep; AcqStep].

(** The producer has put the first sample and holds the second one. *)
Definition held_schedule : list action := put_schedule ++ [AcqStep].

(** A buffer counts as true when it holds a record. *)
Definition holds_records (b : Buffer) : bool :=
  match contents b with [] => false | _ :: _ => true end.

(** ** Proof automation: the cases of the wiring *)

Ltac wired_cases Hw :=
  unfold wired in Hw;
  match type of Hw with
  | context [_acq_process ?c] =>
      destruct (_acq_process c) eqn:?, (_process_thread c) eqn:?,
               (_buf c) as [[?|]|] eqn:?, (_processor c) eqn:?;
      try contradiction; clear Hw
  end.

Ltac close_cases :=
  intros;
  repeat match goal with
         | H : _ /\ _ |- _ => destruct H
         end;
  unfold stopped in *; simpl in *;
  try discriminate; try contradiction; try congruence;
  repeat split; try assumption; try reflexivity; try congruence.

(** * Copy phrase wrapper (src/bcipy/helpers/signal_model_related.py) *)

Module CopyPhrase.

(** The exceptions of [letter_info]: [target_info[i]] out of range, and the
    [Exception] raised for unexpected letters, with the set it reports. *)
Inductive error : Type :=
| IndexError
| Exception (invalid : list string).

Inductive outcome (A : Type) : Type :=
| Return (a : A)
| Throw (e : error).
Arguments Return {A} a.
Arguments Throw {A} e.

(** The attributes that [letter_info] reads.  The other attributes of the
    class are built by modules that are not among the sources.
    [valid_targets] is a set: only membership in it is used. *)
Record CopyPhraseWrapper : Type := mkCopyPhraseWrapper {
  alp : list string;
  nonletters : list string;
  valid_targets : list string
}.

Definition __init__ (alp : list string) : CopyPhraseWrapper :=
  mkCopyPhraseWrapper alp ["+"; "PLUS"; "calibration_trigger"]%string
                      (nodup string_dec alp).

(** [x in l]. *)
Definition mem (x : string) (l : list string) : bool :=
  existsb (String.eqb x) l.

(** [set(a).issubset(b)] and [set(a).difference(b)]. *)
Definition issubset (a b : list string) : bool :=
  forallb (fun x => mem x b) a.
Definition difference (a b : list string) : list string :=
  nodup string_dec (filter (fun x => negb (mem x b)) a).

Section Stamps.

(** The type of the flash times. *)
Variable T : Type.

(** The [for] loop of [letter_info], from position [i] of [enumerate]. *)
Fixpoint letter_info_loop (self : CopyPhraseWrapper)
    (target_info : list string) (i : nat) (triggers : list (string * T))
    (letters : list string) (times : list T) (target_types : list string)
  : outcome (list string * list T * list string) :=
  match triggers with
  | [] => Return (letters, times, target_types)
  | (letter, stamp) :: rest =>
      if negb (mem letter (nonletters self)) then
        match nth_error target_info i with
        | Some t =>
            letter_info_loop self target_info (S i) rest
              (letters ++ [letter]) (times ++ [stamp]) (target_types ++ [t])
        | None => Throw IndexError
        end
      else
        letter_info_loop self target_info (S i) rest
          letters times target_types
  end.

Definition letter_info (self : CopyPhraseWrapper)
    (triggers : list (string * T)) (target_info : list string)
  : outcome (list string * list T * list string) :=
  match letter_info_loop self target_info 0 triggers [] [] [] with
  | Throw e => Throw e
  | Return (letters, times, target_types) =>
      if negb (issubset letters (valid_targets self)) then
        Throw (Exception (difference letters (valid_targets self)))
      else Return (letters, times, target_types)
  end.

(** The triggers that [letter_info] keeps, each with its target type. *)
Definition is_letter (self : CopyPhraseWrapper) (letter : string) : bool :=
  negb (mem letter (nonletters self)).

Definition kept (self : CopyPhraseWrapper)
    (triggers : list (string * T)) (target_info : list string)
  : list (string * T * string) :=
  filter (fun x => is_letter self (fst (fst x))) (combine triggers target_info).

(** The components of a kept trigger. *)
Definition letter_of (x : string * T * string) : string := fst (fst x).
Definition time_of (x : string * T * string) : T := snd (fst x).
Definition target_of (x : string * T * string) : string := snd x.

(** The triggers that pass the filter of the loop. *)
Definition letters_only (self : CopyPhraseWrapper)
    (triggers : list (string * T)) : list (string * T) :=
  filter (fun tr => is_letter self (fst tr)) triggers.

(** A trigger that passes the filter stands at or beyond the end of
    [target_info], positions being counted from [i]. *)
Definition out_of_range (self : CopyPhraseWrapper) (target_info : list string)
    (i : nat) (triggers : list (string * T)) : Prop :=
  exists j letter stamp,
    nth_error triggers j = Some (letter, stamp) /\
    is_letter self letter = true /\
    (List.length target_info <= i + j)%nat.

(** Lines 167-170 of [initialize_epoch]: the probabilities that the language
    model gives, in alphabet order. *)
Definition prior (alp : list string) (lm_letter_prior : list (string * T))
  : list T :=
  flat_map
    (fun alp_letter =>
       flat_map
         (fun sp => match sp with
                    | (prior_sym, prior_prob) =>
                        if String.eqb alp_letter prior_sym then [prior_prob]
                        else []
                    end)
         lm_letter_prior)
    alp.

(** The probabilities that one alphabet letter selects: the inner loop of
    the comprehension. *)
Definition selected (alp_letter : string)
    (lm_letter_prior : list (string * T)) : list T :=
  flat_map
    (fun sp => match sp with
               | (prior_sym, prior_prob) =>
                   if String.eqb alp_letter prior_sym then [prior_prob]
                   else []
               end)
    lm_letter_prior.

End Stamps.

Arguments letter_info_loop {T} _ _ _ _ _ _ _.
Arguments letter_info {T} _ _ _.
Arguments kept {T} _ _ _.
Arguments prior {T} _ _.
Arguments letter_of {T} _.
Arguments time_of {T} _.
Arguments target_of {T} _.
Arguments letters_only {T} _ _.
Arguments out_of_range {T} _ _ _ _.
Arguments selected {T} _ _.

End CopyPhrase.

(** An alphabet, a sequence of flashes with its fixation cross, and the
    target types of the five positions. *)
Definition abc : list string := ["A"; "B"; "C"; "<"]%string.
Definition flashes : list (string * Z) :=
  [("calibration_trigger", 0); ("+", 1); ("B", 2); ("A", 3);
   ("C", 4)]%string.
Definition flash_targets : list string :=
  ["calib"; "fixation"; "target"; "nontarget"; "nontarget"]%string.

(** What a language model returns: the symbols in its own order, one of them
    outside the alphabet. *)
Definition lm_output : list (string * Z) :=
  [("C", 30); ("<", 5); ("A", 50); ("_", 10); ("B", 5)]%string.

(** With a declared non-zero rate no dequeued record is dropped. *)
Definition delivered (c : Client) : Prop :=
  appended (log c) = dequeued (log c) /\
  processed (log c) =
    map (fun r => (data r, timestamp r)) (dequeued (log c)).

(** What holds in every state that the client reaches. *)
Definition sound (c : Client) : Prop :=
  wired c /\ lifecycle c /\ well_fed c /\ failures c /\ sinks c /\ reads c /\
  scoped c /\ stop_state c /\ sealed c /\ get_timeout c /\ queue_bounded c.

(** A rate of 1, hence a queue of capacity 3, and a stream that never ends. *)
Definition steady_device : Device :=
  mkDevice "steady" (Some 1) [] (fun _ => Returned (Some [0])).

(** The producer fills the queue and enters [put] with a fourth record. *)
Definition fill_schedule : list action := CallStart :: repeat AcqStep 8.

(** The workers' part of a session on one sample. *)
Definition workers_schedule : list action :=
  [AcqStep; ProcStep] ++ cycles 1 ++ [AcqStep; ProcStep; ProcTimeout].

(** The records that a cancelled worker may still move: one if it is inside
    [put], respectively [get], none otherwise. *)
Definition acq_pending (c : Client) : nat :=
  match acq_at c with
  | Some (AcqPut _ _) => 1
  | _ => 0
  end.

Definition proc_pending (c : Client) : nat :=
  match proc_at c with
  | Some (ProcGet _) => 1
  | _ => 0
  end.

(** The caller waits in [_acq_process.join()] for a producer that is inside
    [put] on a full queue, and the consumer has terminated. *)
Definition jammed (c : Client) : Prop :=
  main c = MStopJoinAcq /\
  (exists w v k, _acq_process c = Some w /\ at_pc w = AcqPut v k) /\
  full (_process_queue c) = true /\
  proc_joined c.

(** The consumer's [get] times out before the first record arrives; the
    producer then fills the queue, and the caller stops. *)
Definition jam_schedule : list action :=
  [CallStart; ProcStep; ProcStep; ProcTimeout] ++ repeat AcqStep 8 ++
  [CallStop].

(** * Properties *)

Section Invariants.

Variable pb : list Z -> Z -> bool.

Lemma run_invariant (I : Client -> Prop) :
  (forall a c c', step pb a c = Some c' -> I c -> I c') ->
  forall sched c c', run pb sched c = Some c' -> I c -> I c'.
Proof.
  intros Hstep sched.
  induction sched as [|a rest IH]; simpl; intros c c' Hrun Hc.
  - injection Hrun as <-. exact Hc.
  - destruct (step pb a c) as [c1|] eqn:E; [|discriminate].
    eapply IH; eauto.
Qed.

Lemma run_app s1 s2 c :
  run pb (s1 ++ s2) c =
  match run pb s1 c with
  | Some c1 => run pb s2 c1
  | None => None
  end.
Proof.
  revert c. induction s1 as [|a s1 IH]; simpl; intros c.
  - reflexivity.
  - destruct (step pb a c); [apply IH | reflexivity].
Qed.

(** *** The queue is FIFO *)

Lemma fifo_step a c c' : step pb a c = Some c' -> fifo c -> fifo c'.
Proof.
  unfold fifo. intros H.
  step_inv H.
  all: try (intros; assumption).
  all: intros <-; rewrite <- ?app_assoc; reflexivity.
Qed.

(** *** The producer numbers its records from 0 *)

Lemma contiguous_snoc l d :
  contiguous l -> contiguous (l ++ [Record_ d (Z.of_nat (List.length l))]).
Proof.
  unfold contiguous. intros H.
  rewrite map_app, length_app, H. simpl.
  rewrite Nat.add_1_r, seq_S, map_app. reflexivity.
Qed.

Lemma numbering_step a c c' :
  step pb a c = Some c' -> numbering c -> numbering c'.
Proof.
  unfold numbering. intros H.
  step_inv H.
  all: split_goal.
  all: try (intros; assumption).
  all: try (intros [? ?]; split;
            [first [assumption | reflexivity]
            |first [assumption | reflexivity | exact I]]).
  - intros [Hc E]. rewrite E. split; reflexivity.
  - intros [Hc ->]. split; [apply contiguous_snoc; assumption|].
    rewrite length_app. simpl. lia.
  - intros [Hc ->]. split; [apply contiguous_snoc; assumption | exact I].
Qed.

(** *** Attributes that no step assigns *)

Lemma constants_step a c c' : step pb a c = Some c' -> constants c c'.
Proof.
  unfold constants. intros H. step_inv H.
  all: repeat split; reflexivity.
Qed.

(** *** Calibration *)

Lemma first_trigger_snoc l r :
  first_trigger (l ++ [r]) =
  match first_trigger l with
  | Some x => Some x
  | None => if trigger_fired r then Some r else None
  end.
Proof.
  unfold first_trigger. induction l as [|x l IH]; simpl.
  - reflexivity.
  - destruct (trigger_fired x); [reflexivity | exact IH].
Qed.

Lemma calibration_step a c c' :
  step pb a c = Some c' -> calibration c -> calibration c'.
Proof.
  unfold calibration, offset_for. intros H.
  step_inv H.
  all: try (intros; assumption).
  all: rewrite ?first_trigger_snoc.
  all: unfold trigger_fired.
  all: use_eqs_goal.
  all: destruct (first_trigger (dequeued (log c))).
  all: try (intros [? ?]; try congruence; split; congruence).
  all: try (destruct (_is_calibrated c); simpl in *; intros [? ?]; congruence).
  all: intros [_ Ho]; split; [reflexivity|].
  all: match goal with
       | E : truediv _ _ = _ |- _ => rewrite E
       end.
  all: first [reflexivity | exact Ho].
Qed.

Lemma calibrated_stable a c c' :
  step pb a c = Some c' -> _is_calibrated c = true ->
  _is_calibrated c' = true /\ offset c' = offset c.
Proof.
  intros H. step_inv H.
  all: try (intros; split; [assumption | reflexivity]).
  all: intros E; rewrite E in *; discriminate.
Qed.

(** *** Lifecycle of the workers and of [stop_acquisition] *)

Lemma wired_step a c c' : step pb a c = Some c' -> wired c -> wired c'.
Proof.
  unfold wired. intros H. step_inv H.
  all: split_goal.
  all: try (intros; assumption).
  all: try (intros; exact I).
  all: try contradiction.
Qed.

Lemma lifecycle_step a c c' :
  step pb a c = Some c' -> lifecycle c -> lifecycle c'.
Proof.
  unfold lifecycle, acq_joined, proc_cancelled. intros H. step_inv H.
  all: split_goal.
  all: try (intros; assumption).
  all: try (intros (? & ? & ?); repeat split;
            first [assumption | lia | reflexivity | exact I]).
  all: try (intros (? & ? & ? & ?); repeat split;
            first [assumption | lia | reflexivity | exact I]).
  all: try (intros (? & ? & ? & ? & ?); repeat split;
            first [assumption | lia | reflexivity | exact I]).
Qed.

Lemma wedged_step a c c' : step pb a c = Some c' -> wedged c -> wedged c'.
Proof.
  unfold wedged. intros H.
  intros (Hm & (th & Hth & Hpc) & (b & Hb & Hcl)).
  step_inv H.
  all: repeat split; eauto.
Qed.

Lemma streaming_kept a c c' :
  step pb a c = Some c' -> a <> CallStop ->
  main c = MReady /\ _is_streaming c = true ->
  main c' = MReady /\ _is_streaming c' = true.
Proof.
  intros H. step_inv H.
  all: try (intros; assumption).
  all: try (intros ? [? ?]; congruence).
  all: try (intros; split; reflexivity).
Qed.

End Invariants.

(** ** A complete session delivers every sample *)

Lemma full_empty mx : full (mkQueue mx []) = false.
Proof.
  unfold full. simpl. destruct (Z.ltb_spec 0 mx); [|reflexivity].
  destruct (Z.leb_spec mx 0); [lia | reflexivity].
Qed.

Section Liveness.

Variable pb : list Z -> Z -> bool.
Hypothesis pb_returns : forall d ts, pb d ts = false.
Variable dev : Device.
Variable samples : list (list Z).
Hypothesis Hyields : device_yields dev samples.
Hypothesis Hsafe : calibration_safe dev samples.

Lemma numbered_upto_S k :
  numbered_upto samples (S k) =
  numbered_upto samples k ++ [Record_ (nth k samples []) (Z.of_nat k)].
Proof. unfold numbered_upto. rewrite seq_S, map_app. reflexivity. Qed.

Lemma index_last_nonempty (d : list Z) :
  d <> [] -> exists x, index_last d = Ok x.
Proof.
  intros H. unfold index_last.
  destruct (rev d) as [|x l] eqn:E.
  - apply (f_equal (@rev Z)) in E. rewrite rev_involutive in E. contradiction.
  - eauto.
Qed.

Lemma read_next k :
  read_data dev k =
    Returned (if (k <? List.length samples)%nat
              then Some (nth k samples []) else None)
  \/ (List.length samples < k)%nat.
Proof.
  destruct Hyields as [Hs He].
  destruct (Nat.ltb_spec k (List.length samples)).
  - left. apply Hs. assumption.
  - destruct (Nat.eq_dec k (List.length samples)) as [->|];
      [left; exact He | right; lia].
Qed.

(** The start of a session: the first read is made, the consumer is at its
    loop head. *)
Lemma mid_start pn bn :
  exists c,
    run pb [CallStart; AcqStep; ProcStep] (__init__ dev pn bn) = Some c /\
    mid dev samples 0 c.
Proof.
  destruct (read_next 0) as [Hr|Hr]; [|lia].
  run_compute. rewrite Hr. run_compute.
  eexists. split; [reflexivity|].
  unfold mid, persisted, forwarded. simpl. repeat split; eauto.
Qed.

(** One cycle: the producer puts record [k] and reads on, the consumer gets
    the record, appends it and passes it on. *)
Lemma mid_cycle k c :
  (k < List.length samples)%nat -> mid dev samples k c ->
  exists c', run pb one_sample c = Some c' /\ mid dev samples (S k) c'.
Proof.
  intros Hk (Hdev & Hreads & Hacq & (w & Hproc) & Hq & Hm & Henq & Hdeq
             & Hper & Hfwd & (b & Hb) & (p & Hp)).
  destruct c as [dev' n pn bn st cal off iw q acq buf proc th m l].
  unfold persisted, forwarded in *. simpl in *. subst.
  destruct q as [mx its]. simpl in *. subst.
  destruct Hyields as [Hs He]. destruct (Hs k Hk) as [Hne Hrd].
  destruct (read_next (S k)) as [Hr|Hr]; [|lia].
  destruct (index_last_nonempty _ Hne) as [x Hx].
  assert (Hdiv : (0 <? x) = true ->
                 forall a, exists q, truediv a (fs dev) = Ok q).
  { intros Hpos a. destruct Hsafe as [(f & Hfs & Hf) | Hno].
    - unfold truediv. rewrite Hfs.
      destruct (Z.eqb_spec f 0) as [|_]; [contradiction | eauto].
    - specialize (Hno (nth k samples []) (nth_In samples [] Hk)).
      unfold trigger_fired in Hno. cbn [data] in Hno.
      rewrite Hx in Hno. congruence. }
  apply Nat.ltb_lt in Hk. rewrite Hk.
  destruct (nth k samples []) as [|y ys] eqn:Hnth; [contradiction|].
  run_compute. rewrite full_empty. run_compute. rewrite Hr. run_compute.
  destruct cal; run_compute; cbn [data timestamp];
    rewrite ?Hx, ?pb_returns; run_compute;
    try (destruct (0 <? x);
         [destruct (Hdiv eq_refl (Z.of_nat k)) as [q Hq]|];
         run_compute; cbn [data timestamp];
         rewrite ?Hq, ?pb_returns; run_compute).
  all: eexists; (split; [reflexivity|]).
  all: unfold mid, persisted, forwarded; simpl_goal.
  all: rewrite numbered_upto_S, Hnth, map_app, Henq, Hdeq, Hper, Hfwd.
  all: replace (Z.of_nat (S k)) with (Z.of_nat k + 1) by lia.
  all: repeat split; eauto.
Qed.

Lemma mid_cycles pn bn k :
  (k <= List.length samples)%nat ->
  exists c,
    run pb ([CallStart; AcqStep; ProcStep] ++ cycles k) (__init__ dev pn bn)
      = Some c /\
    mid dev samples k c.
Proof.
  induction k as [|k IH]; intros Hk.
  - simpl cycles. rewrite app_nil_r. apply mid_start.
  - destruct IH as (c & Hrun & Hmid); [lia|].
    destruct (mid_cycle k c) as (c' & Hrun' & Hmid'); [lia | assumption |].
    exists c'. split; [|assumption].
    simpl cycles. rewrite app_assoc, run_app, Hrun. exact Hrun'.
Qed.

(** The end of a session: the producer sees no data, the consumer's [get]
    times out on the empty queue. *)
Lemma mid_finish c :
  mid dev samples (List.length samples) c ->
  exists c', run pb [AcqStep; ProcStep; ProcTimeout] c = Some c' /\
     enqueued (log c') = numbered samples /\
     dequeued (log c') = numbered samples /\
     persisted c' = numbered samples /\
     forwarded c' = map (fun r => (data r, timestamp r)) (numbered samples) /\
     items (_process_queue c') = [] /\
     acq_at c' = Some AcqDone /\ proc_at c' = Some ProcDone.
Proof.
  intros (Hdev & Hreads & Hacq & (w & Hproc) & Hq & Hm & Henq & Hdeq
          & Hper & Hfwd & (b & Hb) & (p & Hp)).
  destruct c as [dev' n pn bn st cal off iw q acq buf proc th m l].
  unfold persisted, forwarded in *. simpl in *. subst.
  destruct q as [mx its]. simpl in *. subst.
  rewrite Nat.ltb_irrefl.
  run_compute. unfold empty. run_compute.
  eexists. split; [reflexivity|].
  unfold persisted, forwarded, acq_at, proc_at, numbered. simpl_goal.
  repeat split; assumption.
Qed.

End Liveness.

(** ** Reachable states *)

Lemma init_fifo dev pn bn : fifo (__init__ dev pn bn).
Proof. reflexivity. Qed.

Lemma init_numbering dev pn bn : numbering (__init__ dev pn bn).
Proof. split; [reflexivity | exact I]. Qed.

Lemma init_calibration dev pn bn : calibration (__init__ dev pn bn).
Proof. split; reflexivity. Qed.

Lemma init_lifecycle dev pn bn : lifecycle (__init__ dev pn bn).
Proof. unfold lifecycle. simpl. repeat split; lia. Qed.

Lemma reachable_lifecycle pb dev pn bn sched c :
  run pb sched (__init__ dev pn bn) = Some c -> lifecycle c.
Proof.
  intros H. eapply run_invariant; [apply lifecycle_step | exact H |].
  apply init_lifecycle.
Qed.

Lemma reachable_wired pb dev pn bn sched c :
  run pb sched (__init__ dev pn bn) = Some c -> wired c.
Proof.
  intros H. eapply run_invariant; [apply wired_step | exact H | exact I].
Qed.

(** A device that delivers [samples] has a complete session. *)
Lemma complete_session pb dev samples pn bn :
  (forall d ts, pb d ts = false) ->
  device_yields dev samples -> calibration_safe dev samples ->
  exists c,
    run pb (session (List.length samples)) (__init__ dev pn bn) = Some c /\
    enqueued (log c) = numbered samples /\
    dequeued (log c) = numbered samples /\
    persisted c = numbered samples /\
    forwarded c = map (fun r => (data r, timestamp r)) (numbered samples) /\
    items (_process_queue c) = [] /\
    acq_at c = Some AcqDone /\ proc_at c = Some ProcDone.
Proof.
  intros Hpb Hy Hsafe.
  destruct (mid_cycles pb Hpb dev samples Hy Hsafe pn bn
              (List.length samples)) as (c & Hrun & Hmid); [lia|].
  destruct (mid_finish pb dev samples c Hmid) as (c' & Hrun' & H).
  exists c'. split; [|exact H].
  unfold session. rewrite app_assoc, run_app, Hrun. exact Hrun'.
Qed.

(** ** The caller's side *)

(** Only [stop_acquisition] resets [_is_streaming]. *)
Lemma run_no_stop pb sched c c' :
  run pb sched c = Some c' -> ~ In CallStop sched ->
  main c = MReady /\ _is_streaming c = true ->
  main c' = MReady /\ _is_streaming c' = true.
Proof.
  revert c. induction sched as [|a rest IH]; simpl; intros c Hrun Hno Hc.
  - injection Hrun as <-. exact Hc.
  - destruct (step pb a c) as [c1|] eqn:E; [|discriminate].
    apply (IH c1); auto.
    apply (streaming_kept pb a c c1); auto.
Qed.

Lemma start_sets_streaming pb c c1 :
  step pb CallStart c = Some c1 -> main c1 = MReady /\ _is_streaming c1 = true.
Proof.
  intros H. step_inv H.
  all: split; try reflexivity.
  apply negb_false_iff. assumption.
Qed.

(** [_process_thread.join()] returns when the worker has terminated, and
    only then; the buffer is closed next. *)
Lemma join_proc_step pb c :
  wired c -> proc_cancelled c -> main c = MStopJoinProc ->
  (proc_joined c ->
   exists c', step pb MainStep c = Some c' /\ main c' = MReady /\
              log c' = EvBufClose :: log c /\
              (exists b, _buf c' = Some (Some b) /\ closed b = true) /\
              _acq_process c' = _acq_process c /\
              _process_thread c' = _process_thread c /\
              _process_queue c' = _process_queue c /\
              _initial_wait c' = _initial_wait c /\
              _is_streaming c' = _is_streaming c) /\
  (~ proc_joined c -> step pb MainStep c = None).
Proof.
  unfold wired, proc_joined, proc_cancelled.
  destruct c as [dev n pn bn st cal off iw q acq buf proc thr m l].
  simpl. intros Hw Hc ->.
  destruct acq as [w|], thr as [[pc stp]|], buf as [[b|]|], proc as [p|];
    try contradiction; simpl.
  split.
  - intros Ht. run_compute. rewrite Ht.
    eexists. split; [reflexivity|]. simpl. repeat split. eauto.
  - intros Ht. run_compute.
    destruct (proc_terminated pc);
      [contradiction Ht; reflexivity | reflexivity].
Qed.

Lemma repeat_snoc {A} (x : A) n l :
  repeat x n ++ x :: l = x :: repeat x n ++ l.
Proof.
  induction n as [|n IH]; simpl; [reflexivity | rewrite IH; reflexivity].
Qed.

(** The drain loop of [stop_acquisition] when nothing empties the queue. *)
Lemma drain_ticks pb dev rd pn bn st cal off mx r its acq buf proc thr n :
  forall k l,
    0 <= k -> k + Z.of_nat n <= 200 ->
    run pb (repeat MainStep n)
        (mkClient dev rd pn bn st cal off 2 (mkQueue mx (r :: its))
                  acq buf proc thr (MStopDrain k) l) =
    Some (mkClient dev rd pn bn st cal off 2 (mkQueue mx (r :: its))
                   acq buf proc thr (MStopDrain (k + Z.of_nat n))
                   (repeat EvSleep n ++ l)).
Proof.
  induction n as [|n IH]; intros k l Hk Hn.
  - simpl. rewrite Z.add_0_r. reflexivity.
  - cbn [repeat run]. run_compute. cbn [empty items].
    replace (k <? 2 * 100) with true by (symmetry; apply Z.ltb_lt; lia).
    run_compute.
    change (run pb (repeat MainStep n)
              (mkClient dev rd pn bn st cal off 2 (mkQueue mx (r :: its))
                        acq buf proc thr (MStopDrain (k + 1)) (EvSleep :: l)) =
            Some (mkClient dev rd pn bn st cal off 2 (mkQueue mx (r :: its))
                   acq buf proc thr (MStopDrain (k + Z.of_nat (S n)))
                   (repeat EvSleep (S n) ++ l))).
    rewrite IH by lia.
    rewrite repeat_snoc. simpl repeat.
    replace (k + 1 + Z.of_nat n) with (k + Z.of_nat (S n)) by lia.
    reflexivity.
Qed.

(** A second call of [stop_acquisition], on a client whose workers have
    terminated, runs to its end. *)
Lemma stop_again pb c :
  main c = MReady -> acq_joined c -> proc_joined c ->
  (exists b, _buf c = Some (Some b)) -> _initial_wait c = 2 ->
  exists n k c2,
    run pb (CallStop :: repeat MainStep n) c = Some c2 /\
    main c2 = MReady /\
    log c2 = EvBufClose :: repeat EvSleep k ++ EvDisconnect :: log c.
Proof.
  unfold acq_joined, proc_joined.
  destruct c as [dev rd pn bn st cal off iw q acq buf proc thr m l].
  simpl. intros -> Ha Hp (b & ->) ->.
  destruct acq as [[apc astp]|]; [|contradiction].
  destruct thr as [[ppc pstp]|]; [|contradiction].
  simpl in *.
  destruct q as [mx [|r its]].
  - exists 3%nat, 0%nat. cbn [repeat]. run_compute. rewrite Ha. run_compute.
    cbn [empty items]. run_compute. rewrite Hp. run_compute.
    eexists. split; [reflexivity|]. split; reflexivity.
  - exists 203%nat, 200%nat. eexists. split; [|shelve].
    replace (repeat MainStep 203)
      with ([MainStep] ++ repeat MainStep 200 ++ [MainStep; MainStep])
      by reflexivity.
    rewrite run_app.
    match goal with
    | |- context [run pb [MainStep] ?c0] =>
        assert (E : run pb [MainStep] c0 =
                    Some (mkClient dev rd pn bn false cal off 2
                            (mkQueue mx (r :: its))
                            (Some (mkStoppable apc true)) (Some (Some b)) proc
                            (Some (mkStoppable ppc pstp)) (MStopDrain 0)
                            (EvDisconnect :: l)))
          by (run_compute; rewrite Ha; reflexivity);
        rewrite E; clear E
    end.
    rewrite run_app, drain_ticks by lia.
    run_compute.
    change (0 + Z.of_nat 200 <? 2 * 100) with false.
    run_compute. rewrite Hp. run_compute.
    reflexivity.
    Unshelve. split; reflexivity.
Qed.

(** ** Exceptions of the calibration check *)

Lemma index_last_raise d e : index_last d = Raise e -> d = [].
Proof.
  unfold index_last. destruct (rev d) eqn:E; [|discriminate].
  intros _. apply (f_equal (@rev Z)) in E. rewrite rev_involutive in E. exact E.
Qed.

Lemma truediv_raise a b e : truediv a b = Raise e -> e <> IndexError.
Proof.
  unfold truediv. destruct b as [z|]; [destruct (z =? 0)|]; congruence.
Qed.

Lemma demo_device_safe : calibration_safe demo_device three_samples.
Proof. left. exists 2. split; [reflexivity | discriminate]. Qed.

Lemma demo_device_yields : device_yields demo_device three_samples.
Proof.
  split.
  - intros i Hi. simpl in Hi.
    destruct i as [|[|[|i]]]; try lia; (split; [discriminate | reflexivity]).
  - reflexivity.
Qed.


(** * Further invariants of the client *)

Lemma full_false q :
  full q = false -> 0 < maxsize q ->
  Z.of_nat (List.length (items q)) < maxsize q.
Proof.
  unfold full. intros H Hpos.
  apply Z.ltb_lt in Hpos. rewrite Hpos in H. simpl in H.
  apply Z.leb_gt in H. exact H.
Qed.

Lemma truthy_nonempty d v : truthy d = Some v -> v <> [].
Proof.
  destruct d as [[|x l]|]; simpl; try discriminate.
  intros E. injection E as <-. discriminate.
Qed.

Lemma truediv_raise_cases a b e :
  truediv a b = Raise e ->
  (e = TypeError /\ b = None) \/ (e = ZeroDivisionError /\ b = Some 0).
Proof.
  unfold truediv. destruct b as [z|].
  - destruct (Z.eqb_spec z 0); [|discriminate].
    intros E. injection E as <-. subst. right. split; reflexivity.
  - intros E. injection E as <-. left. split; reflexivity.
Qed.

Section MoreInvariants.

Variable pb : list Z -> Z -> bool.

Lemma queue_bounded_step a c c' :
  step pb a c = Some c' -> queue_bounded c -> queue_bounded c'.
Proof.
  unfold queue_bounded. intros H. step_inv H.
  all: try (intros Hq Hpos; exact (Hq Hpos)).
  all: intros Hq Hpos; specialize (Hq Hpos).
  all: try match goal with
           | E : full _ = false |- _ => pose proof (full_false _ E Hpos)
           end.
  all: rewrite ?length_app in *; cbn [List.length] in *; lia.
Qed.

Lemma well_fed_step a c c' :
  step pb a c = Some c' -> well_fed c -> well_fed c'.
Proof.
  unfold well_fed, acq_at. intros H. step_inv H.
  all: split_goal.
  all: try (intros; assumption).
  all: try (intros (Hq & He & Hp); repeat split;
            first [assumption | exact I]).
  all: intros (Hq & He & Hp).
  all: try (inversion Hq; subst; repeat split; first [assumption | exact I]).
  all: repeat split; try assumption; try exact I.
  all: try (eapply truthy_nonempty; eassumption).
  all: apply Forall_app; split;
    [assumption | constructor; [exact Hp | constructor]].
Qed.

Lemma failures_step a c c' :
  step pb a c = Some c' -> wired c -> well_fed c -> failures c ->
  failures c'.
Proof.
  unfold failures, well_fed, acq_at, proc_at. intros H Hw.
  wired_cases Hw.
  all: step_inv H.
  all: split_goal.
  all: try (intros; assumption).
  all: try (intros _ [? ?]; split; first [assumption | exact I | reflexivity]).
  all: intros (Hq & _ & _) [Ha Hp]; split; [exact Ha|].
  all: try (left; reflexivity).
  all: try (right; eapply truediv_raise_cases; eassumption).
  all: inversion Hq as [|? ? Hr ?]; subst.
  all: match goal with
       | E : index_last (data _) = Raise _ |- _ => apply index_last_raise in E
       end.
  all: contradiction.
Qed.

Lemma sinks_step a c c' :
  step pb a c = Some c' -> wired c -> sinks c -> sinks c'.
Proof.
  unfold sinks, persisted, forwarded. intros H Hw.
  wired_cases Hw.
  all: step_inv H.
  all: split_goal.
  all: try (intros; assumption).
  all: try (intros [? ?]; split; first [assumption | reflexivity]).
  all: try (intros [-> ->]; rewrite ?map_app; split; reflexivity).
Qed.

Lemma reads_step a c c' :
  step pb a c = Some c' -> reads c -> reads c'.
Proof.
  unfold reads, acq_at. intros H.
  step_inv H.
  all: split_goal.
  all: try (intros; assumption).
  all: try (intros [? ?]; split; first [assumption | reflexivity | exact I]).
  all: intros [Hr E]; try discriminate E.
  all: split; [|exact I].
  all: rewrite ?length_app; simpl; lia.
Qed.

Lemma scoped_step a c c' :
  step pb a c = Some c' -> scoped c -> scoped c'.
Proof.
  unfold scoped. intros H.
  step_inv H.
  all: split_goal.
  all: try (intros; assumption).
  all: try (intros; first [reflexivity | exact I]).
Qed.

Lemma get_timeout_step a c c' :
  step pb a c = Some c' -> _initial_wait c = 2 -> get_timeout c ->
  get_timeout c'.
Proof.
  unfold get_timeout, proc_at. intros H.
  step_inv H.
  all: split_goal.
  all: try (intros; assumption).
  all: try (intros; first [reflexivity | exact I]).
Qed.

Lemma stop_state_step a c c' :
  step pb a c = Some c' -> wired c -> lifecycle c -> stop_state c ->
  stop_state c'.
Proof.
  unfold stop_state, lifecycle, shut_down, session_on, acq_cancelled,
    acq_joined, proc_cancelled, proc_joined, buffer_closed, running.
  intros H Hw.
  wired_cases Hw.
  all: step_inv H.
  all: split_goal.
  all: try (intros; assumption).
  all: close_cases.
Qed.

Lemma sealed_step a c c' :
  step pb a c = Some c' -> wired c -> lifecycle c -> sealed c -> sealed c'.
Proof.
  unfold sealed, lifecycle, acq_cancelled,
    acq_joined, proc_cancelled, proc_joined, buffer_closed.
  intros H Hw.
  wired_cases Hw.
  all: step_inv H.
  all: split_goal.
  all: try (intros; assumption).
  all: close_cases.
  all: try match goal with
       | H : ?P -> _, H' : ?P |- _ => destruct (H H'); try discriminate
       end.
  all: try assumption; try congruence.
Qed.

Lemma delivered_step f a c c' :
  f <> 0 -> fs (_device c) = Some f ->
  step pb a c = Some c' -> wired c -> well_fed c -> delivered c ->
  delivered c'.
Proof.
  unfold delivered, well_fed. intros Hf Hfs H Hw.
  wired_cases Hw.
  all: step_inv H.
  all: cbn [appended processed].
  all: try (intros; assumption).
  all: try (intros _ [-> ->]; rewrite ?map_app; split; reflexivity).
  all: intros (Hq & _ & _) _.
  all: try (inversion Hq as [|? ? Hr ?]; subst;
            match goal with
            | E : index_last (data _) = Raise _ |- _ =>
                apply index_last_raise in E
            end; contradiction).
  all: match goal with
       | E : truediv _ _ = Raise _ |- _ =>
           unfold truediv in E; try rewrite Hfs in E;
           destruct (Z.eqb_spec f 0); [contradiction | discriminate E]
       end.
Qed.

Lemma started_step a c c' :
  step pb a c = Some c' -> started c -> started c'.
Proof.
  unfold started. intros H. step_inv H.
  all: try (intros; assumption).
  all: try (intros; discriminate).
  all: try congruence.
Qed.

Lemma streaming_off_step a c c' :
  step pb a c = Some c' -> a <> CallStart ->
  _is_streaming c = false -> _is_streaming c' = false.
Proof.
  intros H. step_inv H.
  all: try (intros; assumption).
  all: try (intros; reflexivity).
  all: try (intros Hn; contradiction Hn; reflexivity).
Qed.

(** Once the processing thread has terminated, only [start_acquisition]
    changes what the client holds in its buffer. *)
Lemma frozen_step a c c' :
  step pb a c = Some c' -> a <> CallStart -> proc_joined c ->
  persisted c' = persisted c /\ appended (log c') = appended (log c).
Proof.
  unfold proc_joined, persisted. intros H. step_inv H.
  all: split_goal.
  all: try (intros; split; reflexivity).
  all: try (intros Hn; contradiction Hn; reflexivity).
  all: try (intros _ E; discriminate E).
  all: try (intros _ E; contradiction E).
Qed.

End MoreInvariants.

(** ** Reachable states, again *)

Lemma sound_step pb a c c' : step pb a c = Some c' -> sound c -> sound c'.
Proof.
  intros H (Hw & Hl & Hf & Hx & Hs & Hr & Hsc & Hst & Hse & Hg & Hq).
  split; [exact (wired_step pb a c c' H Hw)|].
  split; [exact (lifecycle_step pb a c c' H Hl)|].
  split; [exact (well_fed_step pb a c c' H Hf)|].
  split; [exact (failures_step pb a c c' H Hw Hf Hx)|].
  split; [exact (sinks_step pb a c c' H Hw Hs)|].
  split; [exact (reads_step pb a c c' H Hr)|].
  split; [exact (scoped_step pb a c c' H Hsc)|].
  split; [exact (stop_state_step pb a c c' H Hw Hl Hst)|].
  split; [exact (sealed_step pb a c c' H Hw Hl Hse)|].
  split; [exact (get_timeout_step pb a c c' H (proj1 Hl) Hg)|].
  exact (queue_bounded_step pb a c c' H Hq).
Qed.

Lemma init_sound dev pn bn : sound (__init__ dev pn bn).
Proof.
  split; [exact I|].
  split; [apply init_lifecycle|].
  split; [repeat split; constructor|].
  split; [split; exact I|].
  split; [split; reflexivity|].
  split; [split; [reflexivity | exact I]|].
  split; [exact I|].
  split; [reflexivity|].
  split; [intros []|].
  split; [exact I|].
  unfold queue_bounded. simpl. lia.
Qed.

Lemma reachable_sound pb dev pn bn sched c :
  run pb sched (__init__ dev pn bn) = Some c -> sound c.
Proof.
  intros H. eapply run_invariant; [apply sound_step | exact H |].
  apply init_sound.
Qed.

Lemma run_constants pb sched c c' :
  run pb sched c = Some c' -> constants c c'.
Proof.
  intros H.
  apply (run_invariant pb (constants c)) with (sched := sched) (c := c);
    [|exact H | repeat split].
  intros a x y Hs (H1 & H2 & H3 & H4 & H5).
  destruct (constants_step pb a x y Hs) as (E1 & E2 & E3 & E4 & E5).
  repeat split; congruence.
Qed.

Lemma reachable_delivered pb dev pn bn f sched c :
  fs dev = Some f -> f <> 0 ->
  run pb sched (__init__ dev pn bn) = Some c -> delivered c.
Proof.
  intros Hfs Hf H.
  refine (proj2 (run_invariant pb
            (fun x => (_device x = dev /\ sound x) /\ delivered x)
            _ sched _ c H _)).
  - intros a x y Hs [[Hd Hx] Hdel].
    split; [split|].
    + rewrite (proj1 (constants_step pb a x y Hs)). exact Hd.
    + exact (sound_step pb a x y Hs Hx).
    + destruct Hx as (Hw & _ & Hwf & _).
      apply (delivered_step pb f a x y Hf); try assumption.
      rewrite Hd. exact Hfs.
  - split; [split; [reflexivity | apply init_sound]|].
    split; reflexivity.
Qed.

Lemma run_started pb sched c c' :
  run pb sched c = Some c' -> started c -> started c'.
Proof. apply run_invariant. apply started_step. Qed.

Lemma run_no_start pb sched c c' :
  run pb sched c = Some c' -> ~ In CallStart sched ->
  _is_streaming c = false -> _is_streaming c' = false.
Proof.
  revert c. induction sched as [|a rest IH]; simpl; intros c Hrun Hno Hc.
  - injection Hrun as <-. exact Hc.
  - destruct (step pb a c) as [c1|] eqn:E; [|discriminate].
    apply (IH c1); auto.
    apply (streaming_off_step pb a c c1); auto.
Qed.

Section Calls.

Variable pb : list Z -> Z -> bool.

(** [process] is called by the processing thread only, from inside [get]. *)
Lemma process_step a c c' :
  step pb a c = Some c' -> processed (log c') <> processed (log c) ->
  a = ProcStep /\
  exists th w, _process_thread c = Some th /\ at_pc th = ProcGet w.
Proof.
  intros H. step_inv H.
  all: cbn [processed].
  all: try (intros E; contradiction E; reflexivity).
  all: intros _; split; [reflexivity | eauto].
Qed.

(** The step on which [stop_acquisition] returns. *)
Lemma stop_return_step c c' :
  step pb MainStep c = Some c' -> main c' = MReady ->
  main c = MStopJoinProc /\ _is_streaming c' = _is_streaming c /\
  _acq_process c' = _acq_process c.
Proof.
  intros H. step_inv H.
  all: try (intros E; discriminate E).
  all: intros _; repeat split; assumption.
Qed.

End Calls.

(** [stop_acquisition] on a started client reaches its first [join]. *)
Lemma stop_enters c :
  started c ->
  exists c1,
    stop_acquisition c = (c1, Ok MStopJoinAcq) /\
    log c1 = EvDisconnect :: log c /\
    acq_cancelled c1 /\ _is_streaming c1 = false /\ main c1 = main c.
Proof.
  unfold started. intros Hs.
  destruct (_acq_process c) as [w|] eqn:Ew; [|contradiction Hs; reflexivity].
  unfold stop_acquisition, attr, bind, modify, ret. simpl. rewrite Ew.
  eexists. split; [reflexivity|]. repeat split.
Qed.

(** A client that is not streaming and has no call in progress was shut
    down, if it was ever started. *)
Lemma ready_shut_down pb dev pn bn sched c :
  run pb sched (__init__ dev pn bn) = Some c ->
  main c = MReady -> started c -> _is_streaming c = false -> shut_down c.
Proof.
  intros Hrun Hm Hs Hoff.
  destruct (reachable_sound _ _ _ _ _ _ Hrun)
    as (_ & _ & _ & _ & _ & _ & _ & Hst & _).
  unfold stop_state in Hst. rewrite Hm, Hoff in Hst.
  unfold started in Hs.
  destruct (_acq_process c); [exact Hst | contradiction Hs; reflexivity].
Qed.

Section Cancellation.

Variable pb : list Z -> Z -> bool.

(** A cancelled producer puts at most the record it is inside [put] with. *)
Lemma acq_latency_step a c c' :
  step pb a c = Some c' -> a <> CallStart -> acq_cancelled c ->
  acq_cancelled c' /\
  (List.length (enqueued (log c')) + acq_pending c'
     <= List.length (enqueued (log c)) + acq_pending c)%nat.
Proof.
  unfold acq_cancelled, acq_pending, acq_at, running, stopped.
  intros H. step_inv H.
  all: split_goal.
  all: try (intros Hn; contradiction Hn; reflexivity).
  all: try (intros _ E; contradiction E).
  all: try (intros _ E; split; [first [exact E | reflexivity]|]; lia).
  all: try (intros _ E; split; [first [exact E | reflexivity]|];
            rewrite ?length_app; simpl; lia).
  all: try (intros _ E; congruence).
  all: intros _ E; unfold running in *; rewrite E in *; discriminate.
Qed.

(** A cancelled consumer gets at most the record it is inside [get] for. *)
Lemma proc_latency_step a c c' :
  step pb a c = Some c' -> a <> CallStart -> proc_cancelled c ->
  proc_cancelled c' /\
  (List.length (dequeued (log c')) + proc_pending c'
     <= List.length (dequeued (log c)) + proc_pending c)%nat.
Proof.
  unfold proc_cancelled, proc_pending, proc_at, running, stopped.
  intros H. step_inv H.
  all: split_goal.
  all: try (intros Hn; contradiction Hn; reflexivity).
  all: try (intros _ E; contradiction E).
  all: try (intros _ E; split; [first [exact E | reflexivity]|]; lia).
  all: try (intros _ E; split; [first [exact E | reflexivity]|];
            rewrite ?length_app; simpl; lia).
  all: try (intros _ E; congruence).
  all: intros _ E; unfold running in *; rewrite E in *; discriminate.
Qed.

Lemma run_latency sched :
  forall c c',
    run pb sched c = Some c' -> ~ In CallStart sched ->
    (acq_cancelled c ->
     (List.length (enqueued (log c')) + acq_pending c'
        <= List.length (enqueued (log c)) + acq_pending c)%nat) /\
    (proc_cancelled c ->
     (List.length (dequeued (log c')) + proc_pending c'
        <= List.length (dequeued (log c)) + proc_pending c)%nat).
Proof.
  induction sched as [|a rest IH]; simpl; intros c c' Hrun Hno.
  - injection Hrun as <-. split; intros _; lia.
  - destruct (step pb a c) as [c1|] eqn:E; [|discriminate].
    assert (Ha : a <> CallStart) by (intros ->; apply Hno; left; reflexivity).
    destruct (IH c1 c' Hrun) as [IHa IHp]; [intros Hin; apply Hno; right; exact Hin|].
    split.
    + intros Hc. destruct (acq_latency_step a c c1 E Ha Hc) as [Hc1 Hle].
      specialize (IHa Hc1). lia.
    + intros Hc. destruct (proc_latency_step a c c1 E Ha Hc) as [Hc1 Hle].
      specialize (IHp Hc1). lia.
Qed.

End Cancellation.


(** ** The calibration check on a record with a non-empty vector *)

Lemma calibration_check_raise r c e :
  data r <> [] -> snd (calibration_check r c) = Raise e ->
  _is_calibrated c = false /\ trigger_fired r = true /\
  ((e = TypeError /\ fs (_device c) = None) \/
   (e = ZeroDivisionError /\ fs (_device c) = Some 0)).
Proof.
  intros Hne. destruct (index_last_nonempty _ Hne) as [x Hx].
  unfold calibration_check, trigger_fired, bind, gets, lift, modify, ret.
  rewrite Hx.
  destruct (_is_calibrated c); simpl; [discriminate|].
  destruct (0 <? x); simpl; [|discriminate].
  destruct (truediv (timestamp r) (fs (_device c))) as [q| e' |] eqn:E;
    simpl; try discriminate.
  intros R. injection R as <-.
  split; [reflexivity|]. split; [reflexivity|].
  exact (truediv_raise_cases _ _ _ E).
Qed.

Lemma calibration_check_returns r c f :
  data r <> [] -> fs (_device c) = Some f -> f <> 0 ->
  exists c', calibration_check r c = (c', Ok tt).
Proof.
  intros Hne Hfs Hf.
  destruct (calibration_check r c) as [c' [[]|e|]] eqn:E; [eauto | |].
  - apply (f_equal snd) in E. simpl in E.
    destruct (calibration_check_raise r c e Hne E)
      as (_ & _ & [[_ H]|[_ H]]); rewrite Hfs in H; [discriminate|].
    injection H as H. contradiction.
  - exfalso. revert E.
    unfold calibration_check, bind, gets, lift, modify, ret, index_last.
    destruct (_is_calibrated c); simpl; [discriminate|].
    destruct (rev (data r)) as [|x l]; simpl; [discriminate|].
    destruct (0 <? x); simpl; [|discriminate].
    unfold truediv. rewrite Hfs.
    destruct (f =? 0); simpl; discriminate.
Qed.

(** * The copy phrase wrapper *)

Lemma skipn_S_tl {A} (l : list A) i : skipn (S i) l = tl (skipn i l).
Proof.
  revert l. induction i as [|i IH]; intros l.
  - destruct l; reflexivity.
  - destruct l as [|x l]; [reflexivity | exact (IH l)].
Qed.

Lemma nth_error_skipn_cons {A} (l : list A) i t :
  nth_error l i = Some t -> skipn i l = t :: skipn (S i) l.
Proof.
  revert l. induction i as [|i IH]; intros [|x l]; simpl; try discriminate.
  - intros E. injection E as ->. reflexivity.
  - intros E. apply IH in E. exact E.
Qed.

Lemma nth_error_skipn_nil {A} (l : list A) i :
  nth_error l i = None -> skipn i l = [].
Proof.
  intros E. apply nth_error_None in E. apply skipn_all2. exact E.
Qed.

Lemma mem_In x l : CopyPhrase.mem x l = true <-> In x l.
Proof.
  unfold CopyPhrase.mem. rewrite existsb_exists. split.
  - intros (y & Hy & E). apply String.eqb_eq in E. subst. exact Hy.
  - intros H. exists x. split; [exact H | apply String.eqb_refl].
Qed.

Lemma mem_false x l : CopyPhrase.mem x l = false <-> ~ In x l.
Proof.
  rewrite <- mem_In. destruct (CopyPhrase.mem x l); split; congruence.
Qed.

Section LetterInfo.

Variable T : Type.
Variable self : CopyPhrase.CopyPhraseWrapper.

(** What the loop returns, against the pairs of triggers and target types. *)
Lemma loop_returns (ti : list string) (triggers : list (string * T)) :
  forall i L Tm Y ls ts tys,
    CopyPhrase.letter_info_loop self ti i triggers L Tm Y
      = CopyPhrase.Return (ls, ts, tys) ->
    ls = L ++ map CopyPhrase.letter_of
                  (CopyPhrase.kept self triggers (skipn i ti)) /\
    ts = Tm ++ map CopyPhrase.time_of
                   (CopyPhrase.kept self triggers (skipn i ti)) /\
    tys = Y ++ map CopyPhrase.target_of
                   (CopyPhrase.kept self triggers (skipn i ti)).
Proof.
  unfold CopyPhrase.kept.
  induction triggers as [|[letter stamp] rest IH]; intros i L Tm Y ls ts tys.
  - simpl. intros E. injection E as <- <- <-.
    rewrite !app_nil_r. repeat split.
  - cbn [CopyPhrase.letter_info_loop].
    fold (CopyPhrase.is_letter self letter).
    destruct (CopyPhrase.is_letter self letter) eqn:Hl.
    + destruct (nth_error ti i) as [t|] eqn:Hn; [|discriminate].
      intros E. apply IH in E.
      rewrite (nth_error_skipn_cons _ _ _ Hn). cbn [combine filter].
      cbn [fst]. rewrite Hl. cbn [map].
      unfold CopyPhrase.letter_of, CopyPhrase.time_of, CopyPhrase.target_of
        in *. cbn [fst snd].
      rewrite <- !app_assoc in E. exact E.
    + intros E. apply IH in E.
      rewrite skipn_S_tl in E.
      destruct (skipn i ti) as [|t rest_ti] eqn:Hs.
      * cbn [List.tl] in E. destruct rest; exact E.
      * cbn [List.tl] in E. cbn [combine filter fst]. rewrite Hl. exact E.
Qed.

(** The letters and times that the loop returns do not depend on the
    target types. *)
Lemma loop_letters (ti : list string) (triggers : list (string * T)) :
  forall i L Tm Y ls ts tys,
    CopyPhrase.letter_info_loop self ti i triggers L Tm Y
      = CopyPhrase.Return (ls, ts, tys) ->
    ls = L ++ map fst (CopyPhrase.letters_only self triggers) /\
    ts = Tm ++ map snd (CopyPhrase.letters_only self triggers).
Proof.
  induction triggers as [|[letter stamp] rest IH]; intros i L Tm Y ls ts tys.
  - simpl. intros E. injection E as <- <- <-.
    rewrite !app_nil_r. split; reflexivity.
  - unfold CopyPhrase.letters_only in *.
    cbn [CopyPhrase.letter_info_loop filter fst].
    fold (CopyPhrase.is_letter self letter).
    destruct (CopyPhrase.is_letter self letter) eqn:Hl.
    + destruct (nth_error ti i) as [t|] eqn:Hn; [|discriminate].
      intros E. apply IH in E. cbn [map fst snd].
      rewrite <- !app_assoc in E. exact E.
    + intros E. apply IH in E. exact E.
Qed.

(** The loop raises nothing but [IndexError], and exactly when a kept
    trigger stands at or beyond the end of [target_info]. *)
Lemma loop_throws (ti : list string) (triggers : list (string * T)) :
  forall i L Tm Y e,
    CopyPhrase.letter_info_loop self ti i triggers L Tm Y
      = CopyPhrase.Throw e ->
    e = CopyPhrase.IndexError /\ CopyPhrase.out_of_range self ti i triggers.
Proof.
  induction triggers as [|[letter stamp] rest IH]; intros i L Tm Y e.
  - simpl. discriminate.
  - cbn [CopyPhrase.letter_info_loop].
    fold (CopyPhrase.is_letter self letter).
    destruct (CopyPhrase.is_letter self letter) eqn:Hl.
    + destruct (nth_error ti i) as [t|] eqn:Hn.
      * intros E. apply IH in E. destruct E as (-> & j & l & s & Hj & Hk & Hr).
        split; [reflexivity|]. exists (S j), l, s.
        repeat split; try assumption. lia.
      * intros E. injection E as <-. split; [reflexivity|].
        exists O, letter, stamp. repeat split; try assumption.
        apply nth_error_None in Hn. lia.
    + intros E. apply IH in E. destruct E as (-> & j & l & s & Hj & Hk & Hr).
      split; [reflexivity|]. exists (S j), l, s.
      repeat split; try assumption. lia.
Qed.

Lemma loop_out_of_range (ti : list string) (triggers : list (string * T)) :
  forall i L Tm Y,
    CopyPhrase.out_of_range self ti i triggers ->
    CopyPhrase.letter_info_loop self ti i triggers L Tm Y
      = CopyPhrase.Throw CopyPhrase.IndexError.
Proof.
  induction triggers as [|[letter stamp] rest IH];
    intros i L Tm Y (j & l & s & Hj & Hk & Hr).
  - destruct j; discriminate.
  - cbn [CopyPhrase.letter_info_loop].
    fold (CopyPhrase.is_letter self letter).
    destruct (CopyPhrase.is_letter self letter) eqn:Hl.
    + destruct (nth_error ti i) as [t|] eqn:Hn; [|reflexivity].
      apply IH. destruct j as [|j].
      * assert (nth_error ti i <> None) by congruence.
        apply nth_error_Some in H. lia.
      * exists j, l, s. repeat split; try assumption. lia.
    + apply IH. destruct j as [|j].
      * simpl in Hj. injection Hj as -> ->. congruence.
      * exists j, l, s. repeat split; try assumption. lia.
Qed.

(** The loop returns when no kept trigger is out of range. *)
Lemma loop_total (ti : list string) (triggers : list (string * T)) :
  forall i L Tm Y,
    ~ CopyPhrase.out_of_range self ti i triggers ->
    exists r,
      CopyPhrase.letter_info_loop self ti i triggers L Tm Y
        = CopyPhrase.Return r.
Proof.
  intros i L Tm Y Hno.
  destruct (CopyPhrase.letter_info_loop self ti i triggers L Tm Y)
    as [r|e] eqn:E; [eauto|].
  apply loop_throws in E. destruct E as [_ E]. contradiction.
Qed.

(** On triggers that are all letters, with one target type each, the loop
    keeps everything. *)
Lemma loop_keeps_letters (pre tys : list string)
    (triggers : list (string * T)) :
  forall L Tm Y,
    Forall (fun tr => CopyPhrase.is_letter self (fst tr) = true) triggers ->
    List.length triggers = List.length tys ->
    CopyPhrase.letter_info_loop self (pre ++ tys) (List.length pre) triggers
                                L Tm Y
    = CopyPhrase.Return (L ++ map fst triggers,
                         Tm ++ map snd triggers, Y ++ tys).
Proof.
  revert pre tys.
  induction triggers as [|[letter stamp] rest IH];
    intros pre tys L Tm Y Hall Hlen.
  - destruct tys; [|discriminate]. simpl. rewrite !app_nil_r. reflexivity.
  - destruct tys as [|t tys]; [discriminate|].
    inversion Hall as [|? ? Hl Hrest]; subst.
    cbn [CopyPhrase.letter_info_loop].
    fold (CopyPhrase.is_letter self letter). cbn [fst] in Hl. rewrite Hl.
    rewrite nth_error_app2 by lia. rewrite Nat.sub_diag. cbn [nth_error].
    replace (pre ++ t :: tys) with ((pre ++ [t]) ++ tys)
      by (rewrite <- app_assoc; reflexivity).
    replace (S (List.length pre)) with (List.length (pre ++ [t]))
      by (rewrite length_app; simpl; lia).
    rewrite IH; [|exact Hrest | simpl in Hlen; lia].
    cbn [map fst snd]. rewrite <- !app_assoc. reflexivity.
Qed.

End LetterInfo.

(** ** The prior of [initialize_epoch] *)

Section Prior.

Variable T : Type.

Lemma selected_absent a (lm : list (string * T)) : ~ In a (map fst lm) -> CopyPhrase.selected a lm = [].
Proof.
  unfold CopyPhrase.selected.
  induction lm as [|[s p] lm IH]; simpl; intros H; [reflexivity|].
  destruct (String.eqb_spec a s) as [->|_].
  - contradiction H. left. reflexivity.
  - apply IH. intros Hin. apply H. right. exact Hin.
Qed.

Lemma selected_present a (lm : list (string * T)) :
  NoDup (map fst lm) -> In a (map fst lm) ->
  exists p, CopyPhrase.selected a lm = [p] /\ In (a, p) lm.
Proof.
  induction lm as [|[s p] lm IH]; intros Hnd Hin; simpl in Hnd, Hin;
    [contradiction|].
  inversion Hnd as [|? ? Hs Hnd']; subst.
  change (CopyPhrase.selected a ((s, p) :: lm))
    with ((if String.eqb a s then [p] else []) ++ CopyPhrase.selected a lm).
  destruct (String.eqb_spec a s) as [->|Hne].
  - exists p. rewrite (selected_absent s lm Hs). split; [reflexivity|].
    left. reflexivity.
  - destruct Hin as [E|Hin]; [congruence|].
    destruct (IH Hnd' Hin) as (q & E & Hq).
    exists q. split; [exact E | right; exact Hq].
Qed.

Lemma prior_cons a alp (lm : list (string * T)) :
  CopyPhrase.prior (a :: alp) lm = CopyPhrase.selected a lm ++ CopyPhrase.prior alp lm.
Proof. reflexivity. Qed.

End Prior.

(** ** Sets of letters *)

Lemma combine_fst_snd {A B} (l : list (A * B)) :
  combine (map fst l) (map snd l) = l.
Proof.
  induction l as [|[a b] l IH]; simpl; [reflexivity | rewrite IH; reflexivity].
Qed.

Lemma issubset_true a b :
  CopyPhrase.issubset a b = true <-> (forall x, In x a -> In x b).
Proof.
  unfold CopyPhrase.issubset. rewrite forallb_forall.
  split; intros H x Hx; apply mem_In; apply H; exact Hx.
Qed.

Lemma In_difference x a b :
  In x (CopyPhrase.difference a b) <-> In x a /\ ~ In x b.
Proof.
  unfold CopyPhrase.difference.
  rewrite nodup_In, filter_In, negb_true_iff, mem_false. reflexivity.
Qed.

Lemma In_letters_only {T} self (triggers : list (string * T)) x :
  In x (map fst (CopyPhrase.letters_only self triggers)) <->
  (exists stamp, In (x, stamp) triggers) /\
  CopyPhrase.is_letter self x = true.
Proof.
  unfold CopyPhrase.letters_only. rewrite in_map_iff. split.
  - intros ([l s] & E & Hin). simpl in E. subst l.
    apply filter_In in Hin. destruct Hin as [Hin Hl].
    split; [exists s; exact Hin | exact Hl].
  - intros ((s & Hin) & Hl). exists (x, s). split; [reflexivity|].
    apply filter_In. split; [exact Hin | exact Hl].
Qed.

Lemma is_letter_true self x :
  CopyPhrase.is_letter self x = true <->
  ~ In x (CopyPhrase.nonletters self).
Proof.
  unfold CopyPhrase.is_letter. rewrite negb_true_iff. apply mem_false.
Qed.

(** * The claims *)

(** C1, as amended.  Whatever the interleaving of the caller, the
    acquisition loop and the process loop, the records dequeued so far
    followed by the records still queued are the records enqueued so far, in
    the same order: nothing is lost, duplicated or reordered, and the
    consumer has dequeued exactly what the producer enqueued if and only if
    the queue is empty.  The records put by one run of the acquisition loop
    carry the numbers 0, 1, 2, ...  And a device that delivers N samples and
    then the end of its stream, with a sink that returns and a calibration
    check that cannot raise (a declared non-zero rate, or no positive last
    element), has a complete session, in which each sample is consumed
    before the next one is produced: the N records [Record(sample_i, i)] are
    enqueued and dequeued, in that order. *)
Theorem C1_fifo_every_sample :
  forall (pb : list Z -> Z -> bool) (dev : Device) (pn bn : string),
    (forall sched c,
        run pb sched (__init__ dev pn bn) = Some c ->
        dequeued (log c) ++ items (_process_queue c) = enqueued (log c) /\
        map timestamp (session_puts (log c)) =
          map Z.of_nat (seq 0 (List.length (session_puts (log c)))) /\
        (items (_process_queue c) = [] <->
         dequeued (log c) = enqueued (log c))) /\
    (forall samples,
        device_yields dev samples -> calibration_safe dev samples ->
        (forall d ts, pb d ts = false) ->
        exists c,
          run pb (session (List.length samples)) (__init__ dev pn bn)
            = Some c /\
          enqueued (log c) = numbered samples /\
          dequeued (log c) = numbered samples /\
          items (_process_queue c) = []).
Proof.
  intros pb dev pn bn. split.
  - intros sched c Hrun.
    assert (Hf : fifo c)
      by (eapply run_invariant;
          [apply fifo_step | exact Hrun | apply init_fifo]).
    assert (Hn : numbering c)
      by (eapply run_invariant;
          [apply numbering_step | exact Hrun | apply init_numbering]).
    split; [exact Hf|]. split; [exact (proj1 Hn)|].
    unfold fifo in Hf. split.
    + intros Hq. rewrite Hq, app_nil_r in Hf. exact Hf.
    + intros Hd. rewrite <- Hd in Hf.
      rewrite <- (app_nil_r (dequeued (log c))) in Hf at 2.
      exact (app_inv_head _ _ _ Hf).
  - intros samples Hy Hsafe Hpb.
    destruct (complete_session pb dev samples pn bn Hpb Hy Hsafe)
      as (c & Hrun & He & Hd & _ & _ & Hq & _).
    exists c. auto.
Qed.

Lemma C1_fifo_every_sample_witness :
  exists c,
    run returns (session 3) (Client_new demo_device) = Some c /\
    dequeued (log c) = [Record_ [0] 0; Record_ [5; 1] 1; Record_ [7] 2].
Proof.
  destruct (proj2 (C1_fifo_every_sample returns demo_device
                     "rawdata.csv" "buffer.db")
              three_samples demo_device_yields demo_device_safe
              (fun _ _ => eq_refl))
    as (c & Hrun & _ & Hd & _).
  exists c. split; [exact Hrun | exact Hd].
Defined.

(** C1, as stated, fails: when the consumer's [get] times out before the
    first sample arrives, the consumer leaves its loop; the producer then
    enqueues its three records and ends.  Both workers have ended without an
    exception, three records were enqueued and none was dequeued; a whole
    call of [stop_acquisition] afterwards, its drain loop run to the bound,
    changes nothing of that. *)
Lemma C1_counterexample :
  exists c c',
    run returns starved_schedule (Client_new demo_device) = Some c /\
    acq_at c = Some AcqDone /\ proc_at c = Some ProcDone /\
    enqueued (log c) = numbered three_samples /\
    dequeued (log c) = [] /\
    run returns full_stop c = Some c' /\
    main c' = MReady /\
    enqueued (log c') = numbered three_samples /\
    dequeued (log c') = [] /\
    items (_process_queue c') = numbered three_samples.
Proof.
  eexists. eexists.
  split; [vm_compute; reflexivity|].
  split; [reflexivity|]. split; [reflexivity|].
  split; [reflexivity|]. split; [reflexivity|].
  split; [vm_compute; reflexivity|].
  repeat split.
Qed.

(** C2, at the failing input.  In every state the client can reach: if no
    record dequeued so far has a positive last element, [_is_calibrated] is
    false and [offset] is 0; otherwise [_is_calibrated] is true and, for the
    first such record, [offset] is [timestamp / f] when the device declares
    a non-zero rate [f], but is still 0 when the device declares no rate or
    the rate 0: the flag is set before the division, which then raises.
    Once [_is_calibrated] is true, it and [offset] keep their values
    whatever happens next, so that [offset] is never computed. *)
Theorem C2_calibrated_once :
  forall (pb : list Z -> Z -> bool) (dev : Device) (pn bn : string)
         (sched : list action) (c : Client),
    run pb sched (__init__ dev pn bn) = Some c ->
    match first_trigger (dequeued (log c)) with
    | None => _is_calibrated c = false /\ offset c = 0%Q
    | Some r =>
        _is_calibrated c = true /\
        match fs dev with
        | Some f =>
            if f =? 0 then offset c = 0%Q
            else offset c = (inject_Z (timestamp r) / inject_Z f)%Q
        | None => offset c = 0%Q
        end
    end /\
    (_is_calibrated c = true ->
     forall sched' c',
       run pb sched' c = Some c' ->
       _is_calibrated c' = true /\ offset c' = offset c).
Proof.
  intros pb dev pn bn sched c Hrun. split.
  - pose proof (run_invariant pb calibration (calibration_step pb)
                  sched _ c Hrun (init_calibration dev pn bn)) as Hc.
    assert (Hd : _device c = dev).
    { apply (run_invariant pb (fun x => _device x = dev)) in Hrun;
        [exact Hrun | | reflexivity].
      intros a x y Hs Hx.
      rewrite (proj1 (constants_step pb a x y Hs)). exact Hx. }
    unfold calibration, offset_for, truediv in Hc. rewrite Hd in Hc.
    destruct (first_trigger (dequeued (log c))) as [r|]; [|exact Hc].
    destruct Hc as [Hcal Ho]. split; [exact Hcal|].
    destruct (fs dev) as [f|]; [|exact Ho].
    destruct (f =? 0); exact Ho.
  - intros Hcal sched' c' Hrun'.
    apply (run_invariant pb
             (fun x => _is_calibrated x = true /\ offset x = offset c))
      in Hrun'.
    + exact Hrun'.
    + intros a x y Hstep [Hx Ho].
      destruct (calibrated_stable pb a x y Hstep Hx) as [Hy Ho'].
      split; [exact Hy | congruence].
    + split; [exact Hcal | reflexivity].
Qed.

Lemma C2_calibrated_once_witness :
  exists c,
    run returns trigger_schedule (Client_new unrated_demo_device) = Some c /\
    first_trigger (dequeued (log c)) = Some (Record_ [5; 1] 1) /\
    proc_at c = Some (ProcFailed TypeError) /\
    _is_calibrated c = true /\ offset c = 0%Q.
Proof.
  eexists. split; [vm_compute; reflexivity|].
  split; [reflexivity|]. split; [reflexivity|].
  match goal with
  | |- _is_calibrated ?c = _ /\ _ =>
      pose proof (proj1 (C2_calibrated_once returns unrated_demo_device
                  "rawdata.csv" "buffer.db" trigger_schedule c
                  ltac:(vm_compute; reflexivity))) as H
  end.
  vm_compute in H. exact H.
Defined.

(** C3, as amended.  In every reachable state the drain loop of
    [stop_acquisition] has slept at most [_initial_wait * 100] ticks.  When
    the caller is in [_process_thread.join()], the worker's stop flag is set;
    the join returns, and the buffer is closed, if the worker has terminated,
    and does not return if it has not.  When the worker is inside a [process]
    call that never returns, the caller stays in the join and the buffer
    stays open, whatever runs next. *)
Theorem C3_drain_bounded_join_waits :
  forall (pb : list Z -> Z -> bool) (dev : Device) (pn bn : string)
         (sched : list action) (c : Client),
    run pb sched (__init__ dev pn bn) = Some c ->
    0 <= drain_sleeps (log c) <= _initial_wait c * 100 /\
    (main c = MStopJoinProc ->
     proc_cancelled c /\
     (proc_joined c ->
      exists c', step pb MainStep c = Some c' /\ main c' = MReady /\
                 log c' = EvBufClose :: log c /\
                 exists b, _buf c' = Some (Some b) /\ closed b = true) /\
     (~ proc_joined c -> step pb MainStep c = None)) /\
    (wedged c ->
     forall sched' c', run pb sched' c = Some c' -> wedged c').
Proof.
  intros pb dev pn bn sched c Hrun.
  pose proof (reachable_lifecycle _ _ _ _ _ _ Hrun) as (Hiw & Hb & Hm).
  pose proof (reachable_wired _ _ _ _ _ _ Hrun) as Hw.
  split; [rewrite Hiw; lia|]. split.
  - intros Hj. rewrite Hj in Hm. destruct Hm as (_ & Hc & _).
    split; [exact Hc|].
    destruct (join_proc_step pb c Hw Hc Hj) as [Hyes Hno].
    split; [|exact Hno].
    intros Ht. destruct (Hyes Ht) as (c' & Hs & Hm' & Hl & Hcl & _).
    exists c'. auto.
  - intros Hwd sched' c' Hrun'.
    eapply run_invariant; [apply wedged_step | exact Hrun' | exact Hwd].
Qed.

Lemma C3_drain_bounded_join_waits_witness :
  exists c,
    run never_returns wedge_schedule (Client_new plain_device) = Some c /\
    0 <= drain_sleeps (log c) <= 200 /\
    step never_returns MainStep c = None.
Proof.
  eexists. split; [vm_compute; reflexivity|].
  match goal with
  | |- _ <= drain_sleeps (log ?c) <= _ /\ _ =>
      pose proof (C3_drain_bounded_join_waits never_returns plain_device
                    "rawdata.csv" "buffer.db" wedge_schedule c
                    ltac:(vm_compute; reflexivity)) as (Hb & Hj & _)
  end.
  split; [exact Hb|].
  apply Hj; [reflexivity|].
  unfold proc_joined. simpl. discriminate.
Defined.

(** C3, as stated, fails: with a sink whose [process] call never returns,
    the consumer enters [process] on the only sample, the caller enters
    [stop_acquisition], joins the producer, finds the queue empty, sets the
    consumer's stop flag and joins it; from there no schedule lets
    [stop_acquisition] return. *)
Lemma C3_counterexample :
  exists c,
    run never_returns wedge_schedule (Client_new plain_device) = Some c /\
    main c = MStopJoinProc /\
    ~ stop_can_return never_returns c.
Proof.
  eexists. split; [vm_compute; reflexivity|].
  split; [reflexivity|].
  intros (sched & c' & Hrun & Hm).
  apply (run_invariant never_returns wedged (wedged_step never_returns))
    in Hrun.
  - destruct Hrun as [Hm' _]. rewrite Hm in Hm'. discriminate.
  - split; [reflexivity|]. split.
    + eexists. split; reflexivity.
    + eexists. split; reflexivity.
Qed.

(** C4, at the failing input.  On a client on which [start_acquisition] was
    never called, [get_data] and [get_data_len] raise [AttributeError]:
    [__init__] does not assign [_buf], so the test [self._buf is None] fails
    on reading the attribute.  And in no reachable state does [_buf] hold
    [None]: the branches that return the empty list and 0 are never taken. *)
Theorem C4_get_data_before_start :
  forall (query : Buffer -> Z -> option Z -> list record)
         (dev : Device) (pn bn : string) (start end_ : option Z),
    snd (get_data query start end_ (__init__ dev pn bn)) =
      Raise (AttributeError "_buf") /\
    snd (get_data_len (__init__ dev pn bn)) = Raise (AttributeError "_buf") /\
    (forall pb sched c,
        run pb sched (__init__ dev pn bn) = Some c -> _buf c <> Some None).
Proof.
  intros. split; [reflexivity|]. split; [reflexivity|].
  intros pb sched c Hrun Hb.
  pose proof (reachable_wired _ _ _ _ _ _ Hrun) as Hw.
  unfold wired in Hw. rewrite Hb in Hw.
  destruct (_acq_process c), (_process_thread c); exact Hw.
Qed.

(** C5, as amended.  [_initial_wait] is 2 and the queue's capacity is
    [(2 + 1) * fs] for every declared non-zero rate [fs], which is
    [(2 + 1) * max(fs, 100)] when [fs] is at least 100, and [(2 + 1) * 100]
    when the device declares no rate ([None] or 0). *)
Theorem C5_queue_capacity :
  forall (dev : Device) (pn bn : string),
    _initial_wait (__init__ dev pn bn) = 2 /\
    (forall f, fs dev = Some f -> f <> 0 ->
       maxsize (_process_queue (__init__ dev pn bn)) = (2 + 1) * f) /\
    (forall f, fs dev = Some f -> 100 <= f ->
       maxsize (_process_queue (__init__ dev pn bn))
       = (2 + 1) * Z.max f 100) /\
    (fs dev = None \/ fs dev = Some 0 ->
       maxsize (_process_queue (__init__ dev pn bn)) = (2 + 1) * 100).
Proof.
  intros dev pn bn. unfold __init__. simpl.
  split; [reflexivity|]. split; [|split].
  - intros f -> Hf. destruct (Z.eqb_spec f 0); [contradiction | reflexivity].
  - intros f -> Hf. destruct (Z.eqb_spec f 0); [lia|].
    rewrite Z.max_l by lia. reflexivity.
  - intros [-> | ->]; reflexivity.
Qed.

Lemma C5_queue_capacity_witness :
  maxsize (_process_queue (Client_new slow_device)) = (2 + 1) * 50.
Proof.
  apply (proj1 (proj2 (C5_queue_capacity slow_device
                         "rawdata.csv" "buffer.db")) 50).
  - reflexivity.
  - discriminate.
Defined.

(** C5, as stated, fails: a device that declares the rate 50 gets a queue of
    capacity 150, not [(2 + 1) * max(50, 100) = 300]. *)
Lemma C5_counterexample :
  maxsize (_process_queue (Client_new slow_device)) = 150 /\
  maxsize (_process_queue (Client_new slow_device)) <>
    (_initial_wait (Client_new slow_device) + 1) * Z.max 50 100.
Proof.
  split; [reflexivity | discriminate].
Qed.

(** C6, at the failing input.  For an acquisition worker of the client: if
    the first [read_data()] raises, the exception leaves
    [_acquisition_loop] (the worker ends as failed, not as done) and nothing
    is enqueued; a [read_data()] that raises inside the loop is caught and
    the worker ends as done; and a first [read_data()] that returns no data
    ends the worker as done with nothing enqueued. *)
Theorem C6_first_read_error_escalates :
  forall (pb : list Z -> Z -> bool) (c : Client) (w : Stoppable acq_pc),
    _acq_process c = Some w ->
    (at_pc w = AcqStart true ->
     read_data (_device c) (device_reads c) = Raised ->
     exists c',
       step pb AcqStep c = Some c' /\
       acq_at c' = Some (AcqFailed DeviceError) /\
       log c' = EvAcquisitionInit :: EvConnect :: log c /\
       _process_queue c' = _process_queue c) /\
    (forall d k,
        at_pc w = AcqPut d k -> full (_process_queue c) = false ->
        read_data (_device c) (device_reads c) = Raised ->
        exists c', step pb AcqStep c = Some c' /\ acq_at c' = Some AcqDone) /\
    (forall d,
        at_pc w = AcqStart true ->
        read_data (_device c) (device_reads c) = Returned d ->
        truthy d = None ->
        exists c',
          run pb [AcqStep; AcqStep] c = Some c' /\
          acq_at c' = Some AcqDone /\
          log c' = EvAcquisitionInit :: EvConnect :: log c /\
          _process_queue c' = _process_queue c).
Proof.
  intros pb c w Hw.
  destruct c as [dev n pn bn st cal off iw q acq buf proc th m l].
  destruct w as [pc stp]. simpl in *. subst. repeat split.
  - intros -> Hrd. run_compute. rewrite Hrd.
    eexists. split; [reflexivity|]. repeat split.
  - intros d k -> Hfull Hrd. run_compute. rewrite Hfull. run_compute.
    rewrite Hrd. eexists. split; reflexivity.
  - intros d -> Hrd Ht. run_compute. rewrite Hrd. run_compute.
    destruct stp; run_compute.
    + eexists. split; [reflexivity|]. repeat split.
    + unfold truthy in Ht.
      destruct d as [[|x xs]|]; try discriminate; run_compute.
      all: eexists; (split; [reflexivity|]); repeat split.
Qed.

Lemma C6_first_read_error_escalates_witness :
  exists c c',
    step returns CallStart (Client_new failing_device) = Some c /\
    step returns AcqStep c = Some c' /\
    acq_at c' = Some (AcqFailed DeviceError) /\
    _process_queue c' = _process_queue c.
Proof.
  eexists.
  match goal with
  | |- exists c', step _ _ _ = Some ?c /\ _ =>
      assert (Hstart : step returns CallStart (Client_new failing_device)
                       = Some c) by (vm_compute; reflexivity);
      destruct (proj1 (C6_first_read_error_escalates returns c
                         (mkStoppable (AcqStart true) false) eq_refl)
                  eq_refl eq_refl)
        as (c' & Hs & Hpc & _ & Hq)
  end.
  exists c'. auto.
Defined.

(** C7.  After a call of [start_acquisition], and whatever the workers do in
    between, a second call with no call of [stop_acquisition] before it
    leaves the client as it is: no attribute changes and nothing is
    spawned or constructed. *)
Theorem C7_start_idempotent :
  forall (pb : list Z -> Z -> bool) (c c1 c2 : Client) (sched : list action),
    step pb CallStart c = Some c1 ->
    run pb sched c1 = Some c2 ->
    ~ In CallStop sched ->
    step pb CallStart c2 = Some c2.
Proof.
  intros pb c c1 c2 sched H1 Hrun Hno.
  destruct (run_no_stop pb sched c1 c2 Hrun Hno
              (start_sets_streaming pb c c1 H1)) as [Hm Hs].
  unfold step, start_acquisition, bind, gets. rewrite Hm, Hs. reflexivity.
Qed.

Lemma C7_start_idempotent_witness :
  exists c1 c2,
    step returns CallStart (Client_new demo_device) = Some c1 /\
    run returns [AcqStep; ProcStep; AcqStep] c1 = Some c2 /\
    step returns CallStart c2 = Some c2.
Proof.
  eexists. eexists.
  split; [vm_compute; reflexivity|].
  split; [vm_compute; reflexivity|].
  eapply (C7_start_idempotent returns (Client_new demo_device) _ _
            [AcqStep; ProcStep; AcqStep]).
  - vm_compute; reflexivity.
  - vm_compute; reflexivity.
  - intros [H | [H | [H | []]]]; discriminate.
Defined.

(** C8, at the failing input.  A consumer that is not yet calibrated and
    dequeues a record whose last element is positive, on a device that
    declares no rate, raises [TypeError] in the calibration check: the
    record was dequeued, and it is neither appended to the buffer nor passed
    to the processor, and the worker takes no further step. *)
Theorem C8_dequeued_record_dropped :
  forall (pb : list Z -> Z -> bool) (c : Client) (th : Stoppable proc_pc)
         (wait : Z) (r : record) (rest : list record),
    _process_thread c = Some th -> at_pc th = ProcGet wait ->
    items (_process_queue c) = r :: rest ->
    _is_calibrated c = false -> trigger_fired r = true ->
    fs (_device c) = None ->
    exists c',
      step pb ProcStep c = Some c' /\
      dequeued (log c') = dequeued (log c) ++ [r] /\
      persisted c' = persisted c /\ forwarded c' = forwarded c /\
      proc_at c' = Some (ProcFailed TypeError) /\
      step pb ProcStep c' = None.
Proof.
  intros pb c th wait r rest Hth Hpc Hq Hcal Htr Hfs.
  destruct c as [dev n pn bn st cal off iw q acq buf proc thr m l].
  destruct th as [pc stp]. destruct q as [mx its]. simpl in *. subst.
  unfold trigger_fired in Htr.
  destruct (index_last (data r)) as [x| |] eqn:Hx; try discriminate.
  run_compute. rewrite Hx, Htr. run_compute.
  unfold truediv. rewrite Hfs. run_compute.
  destruct proc as [p|]; run_compute.
  all: eexists; (split; [reflexivity|]).
  all: unfold proc_at, persisted, forwarded; simpl_goal.
  all: repeat split.
Qed.

Lemma C8_dequeued_record_dropped_witness :
  exists c c',
    run returns unrated_schedule (Client_new unrated_device) = Some c /\
    step returns ProcStep c = Some c' /\
    dequeued (log c') = [Record_ [1] 0] /\
    persisted c' = [] /\ forwarded c' = [] /\
    proc_at c' = Some (ProcFailed TypeError).
Proof.
  eexists.
  match goal with
  | |- exists c', run _ _ _ = Some ?c /\ _ =>
      assert (Hrun : run returns unrated_schedule (Client_new unrated_device)
                     = Some c) by (vm_compute; reflexivity);
      destruct (C8_dequeued_record_dropped returns c
                  (mkStoppable (ProcGet 2) false) 2 (Record_ [1] 0) []
                  eq_refl eq_refl eq_refl eq_refl eq_refl eq_refl)
        as (c' & Hs & Hd & Hp & Hf & Hpc & _)
  end.
  exists c'. split; [exact Hrun|]. split; [exact Hs|].
  rewrite Hd, Hp, Hf. repeat split. exact Hpc.
Defined.

(** C9.  [stop_acquisition] on a client on which [start_acquisition] was
    never called disconnects the device and then raises [AttributeError] on
    [_acq_process]; the worker and buffer attributes do not exist.  And when
    a call of [stop_acquisition] has returned, with [_is_streaming] false, a
    second call runs to its end: it disconnects the device again, sleeps
    while the queue is not empty, and closes the buffer again. *)
Theorem C9_stop_is_not_guarded :
  forall (pb : list Z -> Z -> bool) (dev : Device) (pn bn : string),
    (exists c',
        step pb CallStop (__init__ dev pn bn) = Some c' /\
        main c' = MRaised (AttributeError "_acq_process") /\
        log c' = [EvDisconnect] /\
        _acq_process c' = None /\ _process_thread c' = None /\
        _buf c' = None) /\
    (forall sched c0 c,
        run pb sched (__init__ dev pn bn) = Some c0 ->
        main c0 = MStopJoinProc ->
        step pb MainStep c0 = Some c ->
        main c = MReady /\ _is_streaming c = false /\
        log c = EvBufClose :: log c0 /\
        exists n k c2,
          run pb (CallStop :: repeat MainStep n) c = Some c2 /\
          main c2 = MReady /\
          log c2 = EvBufClose :: repeat EvSleep k ++ EvDisconnect :: log c).
Proof.
  intros pb dev pn bn. split.
  - eexists. split; [reflexivity|]. repeat split.
  - intros sched c0 c Hrun Hm Hstep.
    pose proof (reachable_lifecycle _ _ _ _ _ _ Hrun) as (Hiw & _ & Hl).
    pose proof (reachable_wired _ _ _ _ _ _ Hrun) as Hw.
    rewrite Hm in Hl. destruct Hl as (Ha & Hc & Hs).
    destruct (join_proc_step pb c0 Hw Hc Hm) as [Hyes Hno].
    assert (Hj : proc_joined c0).
    { unfold proc_cancelled in Hc. unfold proc_joined in *.
      destruct (_process_thread c0) as [th|]; [|contradiction].
      destruct (proc_terminated (at_pc th)); [reflexivity|].
      rewrite Hno in Hstep; discriminate. }
    destruct (Hyes Hj)
      as (c' & Hs' & Hm' & Hl' & (b & Hb & _) & Eacq & Eth & _ & Eiw & Est).
    rewrite Hs' in Hstep. injection Hstep as <-.
    split; [exact Hm'|]. split; [congruence|]. split; [exact Hl'|].
    apply stop_again.
    + exact Hm'.
    + unfold acq_joined. rewrite Eacq. exact Ha.
    + unfold proc_joined. rewrite Eth. exact Hj.
    + eauto.
    + congruence.
Qed.

Lemma C9_stop_is_not_guarded_witness :
  exists c0 c c2,
    run returns stop_schedule (Client_new plain_device) = Some c0 /\
    step returns MainStep c0 = Some c /\
    run returns [CallStop; MainStep; MainStep; MainStep] c = Some c2 /\
    log c2 = EvBufClose :: EvDisconnect :: log c /\
    log c = EvBufClose :: log c0.
Proof.
  eexists. eexists.
  match goal with
  | |- exists c2, run _ _ _ = Some ?c0 /\ step _ _ _ = Some ?c /\ _ =>
      assert (Hrun : run returns stop_schedule (Client_new plain_device)
                     = Some c0) by (vm_compute; reflexivity);
      assert (Hstep : step returns MainStep c0 = Some c)
        by (vm_compute; reflexivity);
      destruct (proj2 (C9_stop_is_not_guarded returns plain_device
                         "rawdata.csv" "buffer.db")
                  stop_schedule c0 c Hrun eq_refl Hstep)
        as (_ & _ & Hl & _)
  end.
  eexists. split; [exact Hrun|]. split; [exact Hstep|].
  split; [vm_compute; reflexivity|]. split; [reflexivity | exact Hl].
Defined.

(** C10.  For a consumer inside [get] with a record [r] at the head of the
    queue: if the client is not calibrated and [r.data] is empty, the step
    raises [IndexError]; the record was dequeued and is neither appended nor
    processed, and the worker has terminated (it takes no further step).  If
    the client is calibrated, or [r.data] is not empty, the step does not
    raise [IndexError]. *)
Theorem C10_empty_vector_index_error :
  forall (pb : list Z -> Z -> bool) (c : Client) (th : Stoppable proc_pc)
         (wait : Z) (r : record) (rest : list record),
    _process_thread c = Some th -> at_pc th = ProcGet wait ->
    items (_process_queue c) = r :: rest ->
    (_is_calibrated c = false -> data r = [] ->
     exists c',
       step pb ProcStep c = Some c' /\
       proc_at c' = Some (ProcFailed IndexError) /\
       log c' = EvGet r :: log c /\
       persisted c' = persisted c /\ forwarded c' = forwarded c /\
       step pb ProcStep c' = None /\ step pb ProcTimeout c' = None) /\
    (_is_calibrated c = true \/ data r <> [] ->
     forall c', step pb ProcStep c = Some c' ->
                proc_at c' <> Some (ProcFailed IndexError)).
Proof.
  intros pb c th wait r rest Hth Hpc Hq. split.
  - destruct c as [dev n pn bn st cal off iw q acq buf proc thr m l].
    destruct th as [pc stp]. destruct q as [mx its]. simpl in *. subst.
    intros -> Hd. run_compute. cbn [data]. rewrite Hd. cbn [index_last rev].
    run_compute.
    destruct proc as [p|]; run_compute.
    all: eexists; (split; [reflexivity|]).
    all: unfold proc_at, persisted, forwarded; simpl_goal.
    all: repeat split.
  - intros Hok c' H.
    step_inv H.
    all: unfold proc_at; simpl_goal; try discriminate.
    all: try (intros E; injection E as ->; apply truediv_raise in Heqr1;
              contradiction).
    all: destruct Hok as [Hc | Hd];
      [rewrite Hc in *; discriminate
      |apply index_last_raise in Heqr0; contradiction].
Qed.

Lemma C10_empty_vector_index_error_witness :
  exists c0 c',
    run returns waiting_schedule (Client_new plain_device) = Some c0 /\
    step returns ProcStep
         (set_process_queue (mkQueue 900 [empty_record]) c0) = Some c' /\
    proc_at c' = Some (ProcFailed IndexError) /\
    persisted c' = [].
Proof.
  eexists.
  match goal with
  | |- exists c', run _ _ _ = Some ?c0 /\ _ =>
      assert (Hrun : run returns waiting_schedule (Client_new plain_device)
                     = Some c0) by (vm_compute; reflexivity);
      destruct (proj1 (C10_empty_vector_index_error returns
                         (set_process_queue (mkQueue 900 [empty_record]) c0)
                         (mkStoppable (ProcGet 2) false) 2 empty_record []
                         eq_refl eq_refl eq_refl) eq_refl eq_refl)
        as (c' & Hs & Hpc & _ & Hp & _)
  end.
  exists c'. split; [exact Hrun|]. split; [exact Hs|].
  split; [exact Hpc|]. rewrite Hp. reflexivity.
Defined.

(** * Further properties *)

(** X1.  For a consumer inside [get] with a record [r] at the head of the
    queue, a buffer and a processor: when the calibration check does not
    raise (the client is calibrated already, or [r.data] is not empty and
    either its last element is not positive or the device declares a
    non-zero rate), the step dequeues [r], appends it to the buffer and then
    passes [(r.data, r.timestamp)] to the processor, in that order. *)
Theorem X1_persist_then_forward :
  forall (pb : list Z -> Z -> bool) (c : Client) (th : Stoppable proc_pc)
         (wait : Z) (r : record) (rest : list record)
         (b : Buffer) (p : FileWriter),
    _process_thread c = Some th -> at_pc th = ProcGet wait ->
    items (_process_queue c) = r :: rest ->
    _buf c = Some (Some b) -> _processor c = Some p ->
    (_is_calibrated c = true \/
     data r <> [] /\
     (trigger_fired r = false \/
      exists f, fs (_device c) = Some f /\ f <> 0)) ->
    exists c',
      step pb ProcStep c = Some c' /\
      log c' = EvProcess (data r) (timestamp r) :: EvAppend r :: EvGet r
                 :: log c /\
      persisted c' = persisted c ++ [r] /\
      forwarded c' = forwarded c ++ [(data r, timestamp r)].
Proof.
  intros pb c th wait r rest b p Hth Hpc Hq Hb Hp Hok.
  destruct c as [dev n pn bn st cal off iw q acq buf proc thr m l].
  destruct th as [pc stp]. destruct q as [mx its]. simpl in *. subst.
  destruct cal.
  - run_compute. destruct (pb (data r) (timestamp r)); run_compute.
    all: eexists; (split; [reflexivity|]).
    all: unfold persisted, forwarded; simpl_goal; repeat split.
  - destruct Hok as [Hc | [Hd Hok]]; [discriminate|].
    destruct (index_last_nonempty (data r) Hd) as [x Hx].
    unfold trigger_fired in Hok. rewrite Hx in Hok.
    run_compute. rewrite Hx. run_compute.
    destruct (0 <? x) eqn:Hpos; run_compute.
    + destruct Hok as [Hno | (f & Hfs & Hf)]; [discriminate|].
      unfold truediv. rewrite Hfs.
      destruct (Z.eqb_spec f 0) as [|_]; [contradiction|].
      run_compute. destruct (pb (data r) (timestamp r)); run_compute.
      all: eexists; (split; [reflexivity|]).
      all: unfold persisted, forwarded; simpl_goal; repeat split.
    + destruct (pb (data r) (timestamp r)); run_compute.
      all: eexists; (split; [reflexivity|]).
      all: unfold persisted, forwarded; simpl_goal; repeat split.
Qed.

Lemma X1_persist_then_forward_witness :
  exists c c',
    run returns unrated_schedule (Client_new plain_device) = Some c /\
    step returns ProcStep c = Some c' /\
    persisted c' = [Record_ [0] 0] /\ forwarded c' = [([0], 0)].
Proof.
  eexists.
  match goal with
  | |- exists c', run _ _ _ = Some ?c /\ _ =>
      assert (Hrun : run returns unrated_schedule (Client_new plain_device)
                     = Some c) by (vm_compute; reflexivity);
      assert (Hok : _is_calibrated c = true \/
                    data (Record_ [0] 0) <> [] /\
                    (trigger_fired (Record_ [0] 0) = false \/
                     exists f, fs (_device c) = Some f /\ f <> 0))
        by (right; split; [discriminate | left; reflexivity]);
      destruct (X1_persist_then_forward returns c
                  (mkStoppable (ProcGet 2) false) 2 (Record_ [0] 0) []
                  (Buffer_new [] "buffer.db")
                  (FileWriter_enter
                     (FileWriter_new "rawdata.csv" "plain" (Some 300) []))
                  eq_refl eq_refl eq_refl eq_refl eq_refl Hok)
        as (c' & Hs & _ & Hp & Hf)
  end.
  exists c'. split; [exact Hrun|]. split; [exact Hs|].
  rewrite Hp, Hf. split; reflexivity.
Defined.

(** X2.  A device that delivers N samples and then the end of its stream,
    with a sink that returns and a calibration check that cannot raise, has
    a session in which both workers terminate and the buffer holds, and the
    processor was given, the N records [Record(sample_i, i)] in order. *)
Theorem X2_session_persists_and_forwards :
  forall (pb : list Z -> Z -> bool) (dev : Device) (pn bn : string)
         (samples : list (list Z)),
    (forall d ts, pb d ts = false) ->
    device_yields dev samples -> calibration_safe dev samples ->
    exists c,
      run pb (session (List.length samples)) (__init__ dev pn bn) = Some c /\
      persisted c = numbered samples /\
      forwarded c = map (fun r => (data r, timestamp r)) (numbered samples) /\
      acq_at c = Some AcqDone /\ proc_at c = Some ProcDone.
Proof.
  intros pb dev pn bn samples Hpb Hy Hsafe.
  destruct (complete_session pb dev samples pn bn Hpb Hy Hsafe)
    as (c & Hrun & _ & _ & Hp & Hw & _ & Ha & Hpc).
  exists c. auto.
Qed.

Lemma X2_session_persists_and_forwards_witness :
  exists c,
    run returns (session 3) (Client_new demo_device) = Some c /\
    persisted c = [Record_ [0] 0; Record_ [5; 1] 1; Record_ [7] 2].
Proof.
  destruct (X2_session_persists_and_forwards returns demo_device
              "rawdata.csv" "buffer.db" three_samples
              (fun _ _ => eq_refl) demo_device_yields demo_device_safe)
    as (c & Hrun & Hp & _).
  exists c. split; [exact Hrun | exact Hp].
Defined.

(** X3.  In every state the client reaches, the queue has the capacity it
    was built with and, when that capacity is positive, holds no more records
    than it; a producer inside [put] on a full queue cannot move. *)
Theorem X3_queue_within_capacity :
  forall (pb : list Z -> Z -> bool) (dev : Device) (pn bn : string)
         (sched : list action) (c : Client),
    run pb sched (__init__ dev pn bn) = Some c ->
    maxsize (_process_queue c) =
      maxsize (_process_queue (__init__ dev pn bn)) /\
    (0 < maxsize (_process_queue c) ->
     Z.of_nat (List.length (items (_process_queue c)))
       <= maxsize (_process_queue c)) /\
    (forall v k,
        acq_at c = Some (AcqPut v k) -> full (_process_queue c) = true ->
        step pb AcqStep c = None).
Proof.
  intros pb dev pn bn sched c Hrun.
  split; [exact (proj2 (proj2 (proj2 (proj2 (run_constants _ _ _ _ Hrun)))))|].
  split.
  - destruct (reachable_sound _ _ _ _ _ _ Hrun)
      as (_ & _ & _ & _ & _ & _ & _ & _ & _ & _ & Hq).
    exact Hq.
  - intros v k Ha Hfull. unfold acq_at in Ha.
    destruct (_acq_process c) as [w|] eqn:Ew; [|discriminate].
    simpl in Ha.
    assert (Hpc : at_pc w = AcqPut v k) by congruence.
    unfold step. rewrite Ew, Hpc.
    unfold _acquisition_loop, queue_put, bind, gets, block.
    rewrite Hfull. reflexivity.
Qed.

Lemma X3_queue_within_capacity_witness :
  exists c,
    run returns fill_schedule (Client_new steady_device) = Some c /\
    List.length (items (_process_queue c)) = 3%nat /\
    maxsize (_process_queue c) = 3 /\
    step returns AcqStep c = None.
Proof.
  eexists. split; [vm_compute; reflexivity|].
  match goal with
  | |- Datatypes.length (items (_process_queue ?c)) = _ /\ _ =>
      pose proof (X3_queue_within_capacity returns steady_device
                    "rawdata.csv" "buffer.db" fill_schedule c
                    ltac:(vm_compute; reflexivity)) as (Hm & _ & Hb)
  end.
  split; [reflexivity|]. split; [exact Hm|].
  apply (Hb [0] 3); reflexivity.
Defined.

(** X4.  In every state the client reaches, every record that was enqueued,
    and so every record in the queue, has a non-empty vector.  Hence the
    calibration check never raises [IndexError] on a queued record: it
    raises only on a client that is not yet calibrated, for a record whose
    last element is positive, and then [TypeError] with a device that
    declares no rate, or [ZeroDivisionError] with one that declares the
    rate 0. *)
Theorem X4_calibration_check_on_queued_records :
  forall (pb : list Z -> Z -> bool) (dev : Device) (pn bn : string)
         (sched : list action) (c : Client),
    run pb sched (__init__ dev pn bn) = Some c ->
    Forall (fun r => data r <> []) (enqueued (log c)) /\
    Forall (fun r => data r <> []) (items (_process_queue c)) /\
    (forall r e,
        In r (items (_process_queue c)) ->
        snd (calibration_check r c) = Raise e ->
        _is_calibrated c = false /\ trigger_fired r = true /\
        ((e = TypeError /\ fs dev = None) \/
         (e = ZeroDivisionError /\ fs dev = Some 0))).
Proof.
  intros pb dev pn bn sched c Hrun.
  destruct (reachable_sound _ _ _ _ _ _ Hrun)
    as (_ & _ & (Hq & He & _) & _).
  pose proof (proj1 (run_constants _ _ _ _ Hrun)) as Hd. simpl in Hd.
  split; [exact He|]. split; [exact Hq|].
  intros r e Hin Hr.
  rewrite <- Hd.
  apply calibration_check_raise; [|exact Hr].
  exact (proj1 (Forall_forall _ _) Hq r Hin).
Qed.

Lemma X4_calibration_check_on_queued_records_witness :
  exists c,
    run returns unrated_schedule (Client_new unrated_device) = Some c /\
    items (_process_queue c) = [Record_ [1] 0] /\
    snd (calibration_check (Record_ [1] 0) c) = Raise TypeError /\
    trigger_fired (Record_ [1] 0) = true.
Proof.
  eexists. split; [vm_compute; reflexivity|].
  split; [reflexivity|]. split; [reflexivity|].
  match goal with
  | |- trigger_fired ?r = true =>
      refine (proj1 (proj2 (proj2 (proj2
                (X4_calibration_check_on_queued_records returns
                   unrated_device "rawdata.csv" "buffer.db"
                   unrated_schedule _ ltac:(vm_compute; reflexivity)))
                r TypeError (or_introl eq_refl) eq_refl)))
  end.
Defined.

(** X5.  For a device with a declared non-zero rate, in every state the
    client reaches, the calibration check returns on every queued record.
    With it, and the buffer's [append] and the processor's [process] being
    calls that return, the records appended to the buffers are the records
    dequeued, in the same order, and [process] was called with the fields of
    each of them. *)
Theorem X5_rated_device_drops_nothing :
  forall (pb : list Z -> Z -> bool) (dev : Device) (pn bn : string) (f : Z)
         (sched : list action) (c : Client),
    fs dev = Some f -> f <> 0 ->
    run pb sched (__init__ dev pn bn) = Some c ->
    (forall r, In r (items (_process_queue c)) ->
       exists c', calibration_check r c = (c', Ok tt)) /\
    appended (log c) = dequeued (log c) /\
    processed (log c) =
      map (fun r => (data r, timestamp r)) (dequeued (log c)).
Proof.
  intros pb dev pn bn f sched c Hfs Hf Hrun.
  destruct (reachable_delivered _ _ _ _ _ _ _ Hfs Hf Hrun) as [Ha Hp].
  split; [|split; [exact Ha | exact Hp]].
  intros r Hin.
  destruct (reachable_sound _ _ _ _ _ _ Hrun)
    as (_ & _ & (Hq & _) & _).
  pose proof (proj1 (run_constants _ _ _ _ Hrun)) as Hd. simpl in Hd.
  apply (calibration_check_returns r c f); [|rewrite Hd; exact Hfs | exact Hf].
  exact (proj1 (Forall_forall _ _) Hq r Hin).
Qed.

Lemma X5_rated_device_drops_nothing_witness :
  exists c,
    run returns demo_schedule (Client_new demo_device) = Some c /\
    appended (log c) = [Record_ [0] 0; Record_ [5; 1] 1; Record_ [7] 2] /\
    appended (log c) = dequeued (log c).
Proof.
  eexists. split; [vm_compute; reflexivity|].
  split; [reflexivity|].
  match goal with
  | |- appended (log ?c) = _ =>
      exact (proj1 (proj2 (X5_rated_device_drops_nothing returns demo_device
                      "rawdata.csv" "buffer.db" 2 demo_schedule c eq_refl
                      ltac:(discriminate) ltac:(vm_compute; reflexivity))))
  end.
Defined.

(** X6.  In every state that a started client reaches, [get_data()] with no
    [start], whatever its [end], returns the records appended since the last
    buffer was created, oldest first, [get_data_len()] returns their number,
    neither changes the client, and the processor has been given the fields
    of the same records. *)
Theorem X6_get_data_returns_session_records :
  forall (pb : list Z -> Z -> bool)
         (query : Buffer -> Z -> option Z -> list record)
         (dev : Device) (pn bn : string) (sched : list action) (c : Client),
    run pb sched (__init__ dev pn bn) = Some c ->
    started c ->
    (forall end_,
        get_data query None end_ c = (c, Ok (session_appends (log c)))) /\
    get_data_len c =
      (c, Ok (Z.of_nat (List.length (session_appends (log c))))) /\
    forwarded c =
      map (fun r => (data r, timestamp r)) (session_appends (log c)).
Proof.
  intros pb query dev pn bn sched c Hrun Hst.
  destruct (reachable_sound _ _ _ _ _ _ Hrun)
    as (Hw & _ & _ & _ & (Hp & Hf) & _).
  unfold started in Hst. unfold persisted in Hp.
  unfold get_data, get_data_len, attr, bind, ret, Buffer_all, Buffer_len.
  wired_cases Hw.
  rewrite <- Hp. repeat split.
  rewrite Hf. unfold persisted.
  match goal with E : _buf c = _ |- _ => rewrite E end. reflexivity.
Qed.

Lemma X6_get_data_returns_session_records_witness :
  exists c,
    run returns (session 3) (Client_new demo_device) = Some c /\
    get_data (fun _ _ _ => []) None None c =
      (c, Ok [Record_ [0] 0; Record_ [5; 1] 1; Record_ [7] 2]) /\
    get_data_len c = (c, Ok 3).
Proof.
  eexists. split; [vm_compute; reflexivity|].
  match goal with
  | |- get_data _ _ _ ?c = _ /\ _ =>
      pose proof (X6_get_data_returns_session_records returns
                    (fun _ _ _ => []) demo_device "rawdata.csv" "buffer.db"
                    (session 3) c ltac:(vm_compute; reflexivity)
                    ltac:(discriminate)) as (Hg & Hl & _)
  end.
  split; [exact (Hg None) | exact Hl].
Defined.

(** X7.  In every state the client reaches, the number of calls of
    [read_data()] is the number of records enqueued plus the number of
    acquisition processes that got to run: each of them reads one sample
    more than it enqueues.  A process at its loop test whose stop flag is
    set ends there, and the sample it holds is not enqueued. *)
Theorem X7_one_read_ahead :
  forall (pb : list Z -> Z -> bool) (dev : Device) (pn bn : string)
         (sched : list action) (c : Client),
    run pb sched (__init__ dev pn bn) = Some c ->
    device_reads c =
      (List.length (enqueued (log c)) + connects (log c))%nat /\
    (forall w d k,
        _acq_process c = Some w -> at_pc w = AcqLoop d k ->
        stopped w = true ->
        exists c', step pb AcqStep c = Some c' /\
                   acq_at c' = Some AcqDone /\
                   log c' = log c /\
                   _process_queue c' = _process_queue c).
Proof.
  intros pb dev pn bn sched c Hrun.
  destruct (reachable_sound _ _ _ _ _ _ Hrun)
    as (_ & _ & _ & _ & _ & (Hr & _) & _).
  split; [exact Hr|].
  intros w d k Ew Hpc Hs.
  unfold step. rewrite Ew, Hpc.
  unfold _acquisition_loop, attr, bind, ret, running. rewrite Ew.
  unfold stopped in Hs. rewrite Hs. simpl.
  eexists. split; [reflexivity|].
  unfold set_acq_pc, acq_at. rewrite Ew. simpl. repeat split.
Qed.

Lemma X7_one_read_ahead_witness :
  exists c,
    run returns (held_schedule ++ [CallStop; AcqStep])
        (Client_new demo_device) = Some c /\
    device_reads c = 2%nat /\
    enqueued (log c) = [Record_ [0] 0] /\
    acq_at c = Some AcqDone.
Proof.
  eexists. split; [vm_compute; reflexivity|].
  match goal with
  | |- device_reads ?c = _ /\ _ =>
      pose proof (proj1 (X7_one_read_ahead returns demo_device
                    "rawdata.csv" "buffer.db"
                    (held_schedule ++ [CallStop; AcqStep]) c
                    ltac:(vm_compute; reflexivity))) as H
  end.
  split; [exact H|]. split; reflexivity.
Defined.

(** X8.  In every state the client reaches, the processor is entered exactly
    while the processing thread is inside its loop: it is not entered before
    the thread's first step and it has been exited once the thread has
    terminated, however it ended.  A step that calls [process] is a step of
    the thread inside [get], hence on an entered processor. *)
Theorem X8_processor_scope :
  forall (pb : list Z -> Z -> bool) (dev : Device) (pn bn : string)
         (sched : list action) (c : Client) (th : _StoppableThread proc_pc)
         (p : FileWriter),
    run pb sched (__init__ dev pn bn) = Some c ->
    _process_thread c = Some th -> _processor c = Some p ->
    entered p = in_loop (at_pc th) /\
    (proc_terminated (at_pc th) = true -> entered p = false) /\
    (forall a c',
        step pb a c = Some c' ->
        processed (log c') <> processed (log c) ->
        a = ProcStep /\ entered p = true).
Proof.
  intros pb dev pn bn sched c th p Hrun Eth Ep.
  destruct (reachable_sound _ _ _ _ _ _ Hrun)
    as (_ & _ & _ & _ & _ & _ & Hsc & _).
  unfold scoped in Hsc. rewrite Eth, Ep in Hsc.
  split; [exact Hsc|]. split.
  - rewrite Hsc. destruct (at_pc th); simpl; congruence.
  - intros a c' Hs Hp.
    destruct (process_step pb a c c' Hs Hp) as (-> & th' & w & E & Hpc).
    split; [reflexivity|].
    rewrite Eth in E. injection E as <-.
    rewrite Hsc, Hpc. reflexivity.
Qed.

Lemma X8_processor_scope_witness :
  exists c th p,
    run returns (session 3) (Client_new demo_device) = Some c /\
    _process_thread c = Some th /\ _processor c = Some p /\
    at_pc th = ProcDone /\ entered p = false.
Proof.
  eexists. eexists. eexists.
  split; [vm_compute; reflexivity|].
  split; [reflexivity|]. split; [reflexivity|]. split; [reflexivity|].
  match goal with
  | |- entered ?p = false =>
      refine (proj1 (proj2 (X8_processor_scope returns demo_device
                "rawdata.csv" "buffer.db" (session 3) _
                (mkStoppable ProcDone false) p
                ltac:(vm_compute; reflexivity) eq_refl eq_refl)) eq_refl)
  end.
Defined.

(** X9.  In every state the client reaches, a closed buffer belongs to a
    session whose two workers have terminated, and no step other than a call
    of [start_acquisition] changes what the client's buffer holds or appends
    a record. *)
Theorem X9_closed_buffer_is_final :
  forall (pb : list Z -> Z -> bool) (dev : Device) (pn bn : string)
         (sched : list action) (c : Client) (b : Buffer),
    run pb sched (__init__ dev pn bn) = Some c ->
    _buf c = Some (Some b) -> closed b = true ->
    acq_joined c /\ proc_joined c /\
    (forall a c',
        a <> CallStart -> step pb a c = Some c' ->
        persisted c' = contents b /\ appended (log c') = appended (log c)).
Proof.
  intros pb dev pn bn sched c b Hrun Eb Hcl.
  destruct (reachable_sound _ _ _ _ _ _ Hrun)
    as (_ & _ & _ & _ & _ & _ & _ & _ & Hse & _).
  unfold sealed, buffer_closed in Hse. rewrite Eb in Hse.
  destruct (Hse Hcl) as [Ha Hp].
  split; [exact Ha|]. split; [exact Hp|].
  intros a c' Hn Hs.
  destruct (frozen_step pb a c c' Hs Hn Hp) as [E1 E2].
  split; [|exact E2].
  rewrite E1. unfold persisted. rewrite Eb. reflexivity.
Qed.

Lemma X9_closed_buffer_is_final_witness :
  exists c b,
    run returns (stop_schedule ++ [MainStep]) (Client_new plain_device)
      = Some c /\
    _buf c = Some (Some b) /\ closed b = true /\
    acq_joined c /\ proc_joined c.
Proof.
  eexists. eexists.
  split; [vm_compute; reflexivity|].
  split; [reflexivity|]. split; [reflexivity|].
  match goal with
  | |- acq_joined ?c /\ _ =>
      pose proof (X9_closed_buffer_is_final returns plain_device
                    "rawdata.csv" "buffer.db" (stop_schedule ++ [MainStep])
                    c _ ltac:(vm_compute; reflexivity) eq_refl eq_refl)
        as (Ha & Hp & _)
  end.
  split; [exact Ha | exact Hp].
Defined.

(** X10.  In every state the client reaches, the step on which
    [stop_acquisition] returns leaves [_is_streaming] false, both workers
    cancelled and terminated, and the buffer closed. *)
Theorem X10_stop_returns_after_shutdown :
  forall (pb : list Z -> Z -> bool) (dev : Device) (pn bn : string)
         (sched : list action) (c c' : Client),
    run pb sched (__init__ dev pn bn) = Some c ->
    step pb MainStep c = Some c' -> main c' = MReady ->
    _is_streaming c' = false /\
    acq_cancelled c' /\ acq_joined c' /\
    proc_cancelled c' /\ proc_joined c' /\ buffer_closed c'.
Proof.
  intros pb dev pn bn sched c c' Hrun Hs Hm.
  destruct (stop_return_step pb c c' Hs Hm) as (Hm0 & Est & Eacq).
  pose proof (reachable_sound _ _ _ _ _ _ Hrun) as Hc.
  pose proof (sound_step pb MainStep c c' Hs Hc)
    as (_ & _ & _ & _ & _ & _ & _ & Hst & _).
  destruct Hc as (_ & (_ & _ & Hl) & _).
  rewrite Hm0 in Hl. destruct Hl as (Ha & _ & Hoff).
  assert (Hoff' : _is_streaming c' = false) by congruence.
  split; [exact Hoff'|].
  unfold stop_state in Hst. rewrite Hm, Hoff', Eacq in Hst.
  unfold acq_joined in Ha.
  destruct (_acq_process c); [exact Hst | contradiction].
Qed.

Lemma X10_stop_returns_after_shutdown_witness :
  exists c c',
    run returns stop_schedule (Client_new plain_device) = Some c /\
    step returns MainStep c = Some c' /\
    _is_streaming c' = false /\ buffer_closed c'.
Proof.
  eexists. eexists.
  split; [vm_compute; reflexivity|].
  split; [vm_compute; reflexivity|].
  match goal with
  | |- _is_streaming ?c' = _ /\ _ =>
      pose proof (X10_stop_returns_after_shutdown returns plain_device
                    "rawdata.csv" "buffer.db" stop_schedule _ c'
                    ltac:(vm_compute; reflexivity)
                    ltac:(vm_compute; reflexivity) eq_refl)
        as (H1 & _ & _ & _ & _ & H2)
  end.
  split; [exact H1 | exact H2].
Defined.

(** X11.  In every state the client reaches: if a call on the client has
    raised, the exception is [AttributeError] on [_acq_process] and
    [start_acquisition] was never called; on a started client
    [stop_acquisition] reaches its first [join] without raising; and
    [start_acquisition] returns without raising. *)
Theorem X11_only_unstarted_stop_raises :
  forall (pb : list Z -> Z -> bool) (dev : Device) (pn bn : string)
         (sched : list action) (c : Client),
    run pb sched (__init__ dev pn bn) = Some c ->
    (forall e, main c = MRaised e ->
       e = AttributeError "_acq_process" /\
       _acq_process c = None /\ _process_thread c = None /\ _buf c = None) /\
    (main c = MReady -> started c ->
     exists c', step pb CallStop c = Some c' /\ main c' = MStopJoinAcq) /\
    (main c = MReady ->
     exists c', step pb CallStart c = Some c' /\ main c' = MReady).
Proof.
  intros pb dev pn bn sched c Hrun.
  destruct (reachable_sound _ _ _ _ _ _ Hrun)
    as (Hw & _ & _ & _ & _ & _ & _ & Hst & _).
  split; [|split].
  - intros e Hm. unfold stop_state in Hst. rewrite Hm in Hst.
    destruct Hst as [-> Ha]. unfold wired in Hw. rewrite Ha in Hw.
    destruct (_process_thread c), (_buf c) as [[?|]|], (_processor c);
      try contradiction.
    repeat split. exact Ha.
  - intros Hm Hs. unfold started in Hs.
    destruct (_acq_process c) as [w|] eqn:Ew; [|contradiction Hs; reflexivity].
    unfold step. rewrite Hm.
    unfold stop_acquisition, attr, bind, modify, ret. simpl. rewrite Ew.
    eexists. split; reflexivity.
  - intros Hm. unfold step. rewrite Hm.
    unfold start_acquisition, bind, gets, modify, ret.
    destruct (_is_streaming c); simpl; eexists; (split; [reflexivity|]);
      simpl; exact Hm.
Qed.

Lemma X11_only_unstarted_stop_raises_witness :
  exists c,
    run returns [CallStop] (Client_new demo_device) = Some c /\
    main c = MRaised (AttributeError "_acq_process") /\
    _buf c = None.
Proof.
  eexists. split; [vm_compute; reflexivity|].
  split; [reflexivity|].
  match goal with
  | |- _buf ?c = None =>
      exact (proj2 (proj2 (proj2 (proj1
               (X11_only_unstarted_stop_raises returns demo_device
                  "rawdata.csv" "buffer.db" [CallStop] c
                  ltac:(vm_compute; reflexivity)) _ eq_refl))))
  end.
Defined.

(** X12.  In every state the client reaches, the timeout that the
    processing thread passes to [get] is 2, the value of [_initial_wait]:
    the assignment [wait = 2] after the first record does not shorten it. *)
Theorem X12_get_timeout_is_constant :
  forall (pb : list Z -> Z -> bool) (dev : Device) (pn bn : string)
         (sched : list action) (c : Client) (wait : Z),
    run pb sched (__init__ dev pn bn) = Some c ->
    proc_at c = Some (ProcLoop wait) \/ proc_at c = Some (ProcGet wait) ->
    wait = 2 /\ wait = _initial_wait c.
Proof.
  intros pb dev pn bn sched c wait Hrun Hpc.
  destruct (reachable_sound _ _ _ _ _ _ Hrun)
    as (_ & (Hiw & _) & _ & _ & _ & _ & _ & _ & _ & Hg & _).
  unfold get_timeout in Hg.
  destruct Hpc as [E|E]; rewrite E in Hg; split; congruence.
Qed.

Lemma X12_get_timeout_is_constant_witness :
  exists c,
    run returns demo_schedule (Client_new demo_device) = Some c /\
    proc_at c = Some (ProcLoop 2) /\ 2 = _initial_wait c.
Proof.
  eexists. split; [vm_compute; reflexivity|].
  split; [reflexivity|].
  match goal with
  | |- _ = _initial_wait ?c =>
      exact (proj2 (X12_get_timeout_is_constant returns demo_device
                      "rawdata.csv" "buffer.db" demo_schedule c 2
                      ltac:(vm_compute; reflexivity)
                      (or_introl eq_refl)))
  end.
Defined.

(** X13.  In every state the client reaches, a processing thread whose stop
    flag is set before its first step fails its [assert]: it raises
    [AssertionError] without entering the processor or touching the queue.
    For every device whose first read returns, this happens when
    [stop_acquisition] is entered right after [start_acquisition]: the
    acquisition process connects and reads once after [disconnect], nothing
    is enqueued, and [stop_acquisition] returns. *)
Theorem X13_stop_overtakes_the_workers :
  forall (pb : list Z -> Z -> bool) (dev : Device) (pn bn : string),
    (forall sched c th,
        run pb sched (__init__ dev pn bn) = Some c ->
        _process_thread c = Some th ->
        at_pc th = ProcStart -> stopped th = true ->
        exists c', step pb ProcStep c = Some c' /\
                   proc_at c' = Some (ProcFailed AssertionError) /\
                   log c' = log c /\ _processor c' = _processor c /\
                   _process_queue c' = _process_queue c) /\
    (forall d,
        read_data dev 0 = Returned d ->
        exists c,
          run pb overtaking_schedule (__init__ dev pn bn) = Some c /\
          main c = MReady /\
          acq_at c = Some AcqDone /\
          proc_at c = Some (ProcFailed AssertionError) /\
          device_reads c = 1%nat /\
          forwarded c = [] /\
          log c = [EvBufClose; EvAcquisitionInit; EvConnect; EvDisconnect;
                   EvSpawnProc; EvNewProcessor; EvNewBuffer; EvSpawnAcq]).
Proof.
  intros pb dev pn bn. split.
  - intros sched c th Hrun Eth Hpc Hs.
    unfold step. rewrite Eth, Hpc.
    unfold _process_loop, attr, bind, raise, running. rewrite Eth.
    unfold stopped in Hs. rewrite Hs. simpl.
    eexists. split; [reflexivity|].
    unfold proc_fail, set_proc_pc, proc_at. rewrite Eth. simpl.
    repeat split.
  - intros d Hd. unfold overtaking_schedule.
    run_compute. rewrite Hd.
    repeat (progress (run_compute; cbn [acq_terminated proc_terminated])).
    eexists. split; [reflexivity|].
    repeat split.
Qed.

Lemma X13_stop_overtakes_the_workers_witness :
  exists c,
    run returns overtaking_schedule (Client_new demo_device) = Some c /\
    proc_at c = Some (ProcFailed AssertionError) /\
    device_reads c = 1%nat.
Proof.
  destruct (proj2 (X13_stop_overtakes_the_workers returns demo_device
                     "rawdata.csv" "buffer.db") (Some [0]) eq_refl)
    as (c & Hrun & _ & _ & Hp & Hr & _).
  exists c. split; [exact Hrun|]. split; [exact Hp | exact Hr].
Defined.

(** X14.  In every state the client reaches with no call in progress and
    the producer inside [put] on a queue that is not full: when
    [stop_acquisition] is entered, [disconnect] is called first, and the
    producer's next step still enqueues its record and calls [read_data()]
    once more, on the disconnected device. *)
Theorem X14_read_after_disconnect :
  forall (pb : list Z -> Z -> bool) (dev : Device) (pn bn : string)
         (sched : list action) (c : Client) (v : list Z) (k : Z),
    run pb sched (__init__ dev pn bn) = Some c ->
    main c = MReady ->
    acq_at c = Some (AcqPut v k) ->
    full (_process_queue c) = false ->
    exists c',
      run pb [CallStop; AcqStep] c = Some c' /\
      main c' = MStopJoinAcq /\
      device_reads c' = S (device_reads c) /\
      log c' = EvPut (Record_ v k) :: EvDisconnect :: log c.
Proof.
  intros pb dev pn bn sched c v k _ Hm Ha Hfull.
  destruct c as [dv n pnm bnm st cal off iw q acq buf proc thr m l].
  unfold acq_at in Ha. simpl in *. subst m.
  destruct acq as [[pc stp]|]; [|discriminate].
  simpl in Ha. injection Ha as ->.
  run_compute. rewrite Hfull. run_compute.
  destruct (read_data dv n); run_compute;
    (eexists; split; [reflexivity|]; repeat split).
Qed.

Lemma X14_read_after_disconnect_witness :
  exists c c',
    run returns put_schedule (Client_new demo_device) = Some c /\
    run returns [CallStop; AcqStep] c = Some c' /\
    device_reads c = 1%nat /\ device_reads c' = 2%nat.
Proof.
  eexists.
  match goal with
  | |- exists c', run _ _ _ = Some ?c /\ _ =>
      assert (Hrun : run returns put_schedule (Client_new demo_device)
                     = Some c) by (vm_compute; reflexivity);
      destruct (X14_read_after_disconnect returns demo_device
                  "rawdata.csv" "buffer.db" put_schedule c [0] 0
                  Hrun eq_refl eq_refl eq_refl)
        as (c' & Hrun' & _ & Hr & _)
  end.
  exists c'. split; [exact Hrun|]. split; [exact Hrun'|].
  split; [reflexivity | exact Hr].
Defined.

(** X15.  For a client entered with [__enter__] and then left to its
    workers: [__exit__], whatever exception it is given, calls [disconnect],
    cancels the acquisition process and reaches its first [join] without
    raising; and when it returns, with no call of [start_acquisition] in
    between, [_is_streaming] is false, both workers are cancelled and have
    terminated, and the buffer is closed. *)
Theorem X15_context_manager :
  forall (pb : list Z -> Z -> bool) (dev : Device) (pn bn : string)
         (sched : list action) (c : Client) (exc : option exn),
    run pb sched (fst (__enter__ (__init__ dev pn bn))) = Some c ->
    main c = MReady ->
    exists c1,
      __exit__ exc c = (c1, Ok MStopJoinAcq) /\
      log c1 = EvDisconnect :: log c /\
      acq_cancelled c1 /\
      (forall sched' c2,
          run pb sched' (set_main MStopJoinAcq c1) = Some c2 ->
          ~ In CallStart sched' -> main c2 = MReady ->
          _is_streaming c2 = false /\
          acq_cancelled c2 /\ acq_joined c2 /\
          proc_cancelled c2 /\ proc_joined c2 /\ buffer_closed c2).
Proof.
  intros pb dev pn bn sched c exc Hrun Hm.
  assert (Hrun0 : run pb (CallStart :: sched) (__init__ dev pn bn) = Some c)
    by exact Hrun.
  assert (Hst : started c).
  { apply (run_started pb sched _ c Hrun). discriminate. }
  destruct (stop_enters c Hst) as (c1 & Hstop & Hlog & Hcan & Hoff & Hm1).
  exists c1. split; [exact Hstop|]. split; [exact Hlog|].
  split; [exact Hcan|].
  intros sched' c2 Hrun' Hno Hm2.
  assert (Hstep : step pb CallStop c = Some (set_main MStopJoinAcq c1)).
  { unfold step. rewrite Hm, Hstop. reflexivity. }
  assert (Hrun2 : run pb ((CallStart :: sched) ++ CallStop :: sched')
                      (__init__ dev pn bn) = Some c2).
  { rewrite run_app, Hrun0. cbn [run]. rewrite Hstep. exact Hrun'. }
  assert (Hoff2 : _is_streaming c2 = false).
  { apply (run_no_start pb sched' _ c2 Hrun' Hno). exact Hoff. }
  split; [exact Hoff2|].
  apply (ready_shut_down pb dev pn bn _ c2 Hrun2 Hm2); [|exact Hoff2].
  apply (run_started pb sched' _ c2 Hrun').
  unfold started, acq_cancelled in *. simpl.
  destruct (_acq_process c1); [discriminate | contradiction].
Qed.

Lemma X15_context_manager_witness :
  exists c c1,
    run returns workers_schedule (fst (__enter__ (Client_new plain_device)))
      = Some c /\
    __exit__ (Some DeviceError) c = (c1, Ok MStopJoinAcq) /\
    log c1 = EvDisconnect :: log c.
Proof.
  eexists.
  match goal with
  | |- exists c1, run _ _ _ = Some ?c /\ _ =>
      assert (Hrun : run returns workers_schedule
                       (fst (__enter__ (Client_new plain_device))) = Some c)
        by (vm_compute; reflexivity);
      destruct (X15_context_manager returns plain_device
                  "rawdata.csv" "buffer.db" workers_schedule c
                  (Some DeviceError) Hrun eq_refl)
        as (c1 & Hexit & Hlog & _)
  end.
  exists c1. split; [exact Hrun|]. split; [exact Hexit | exact Hlog].
Defined.

(** X16.  In every state the client reaches: on a client that was never
    started, [cleanup()] raises [AttributeError] on [_buf]; on a started
    client it does not raise, it calls [cleanup()] on the current buffer,
    whether or not the session is still running, exactly when that buffer
    counts as true, and it leaves the client as it is. *)
Theorem X16_cleanup :
  forall (pb : list Z -> Z -> bool) (truth : Buffer -> bool)
         (dev : Device) (pn bn : string) (sched : list action) (c : Client),
    run pb sched (__init__ dev pn bn) = Some c ->
    (~ started c ->
     cleanup truth c = (c, Raise (AttributeError "_buf"))) /\
    (started c ->
     exists b, _buf c = Some (Some b) /\
               contents b = session_appends (log c) /\
               cleanup truth c = (c, Ok (if truth b then Some b else None))).
Proof.
  intros pb truth dev pn bn sched c Hrun.
  destruct (reachable_sound _ _ _ _ _ _ Hrun)
    as (Hw & _ & _ & _ & (Hp & _) & _).
  unfold started, persisted in *.
  unfold cleanup, attr, bind, ret.
  wired_cases Hw.
  - split; [intros H; contradiction H; discriminate|].
    intros _. eexists. split; [reflexivity|]. split; [exact Hp|].
    destruct (truth _); reflexivity.
  - split; [reflexivity|]. intros H. contradiction H. reflexivity.
Qed.

Lemma X16_cleanup_witness :
  exists c b,
    run returns [CallStart] (Client_new demo_device) = Some c /\
    _buf c = Some (Some b) /\
    cleanup holds_records c = (c, Ok None) /\
    cleanup holds_records (Client_new demo_device) =
      (Client_new demo_device, Raise (AttributeError "_buf")).
Proof.
  eexists.
  match goal with
  | |- exists b, run _ _ _ = Some ?c /\ _ =>
      assert (Hrun : run returns [CallStart] (Client_new demo_device)
                     = Some c) by (vm_compute; reflexivity);
      destruct (proj2 (X16_cleanup returns holds_records demo_device
                         "rawdata.csv" "buffer.db" [CallStart] c Hrun)
                  ltac:(discriminate))
        as (b & Eb & _ & Hc)
  end.
  exists b. split; [exact Hrun|]. split; [exact Eb|].
  split; [|reflexivity].
  rewrite Hc.
  assert (E : Some (Some b) = Some (Some (Buffer_new [] "buffer.db")))
    by (rewrite <- Eb; reflexivity).
  injection E as ->. reflexivity.
Defined.

(** X17.  Once a worker's stop flag is set, and as long as
    [start_acquisition] is not called again, the acquisition process
    enqueues at most one more record, the one it is inside [put] with, and
    the processing thread dequeues at most one more record, the one it is
    inside [get] for. *)
Theorem X17_cancellation_takes_one_record :
  forall (pb : list Z -> Z -> bool) (sched : list action) (c c' : Client),
    run pb sched c = Some c' -> ~ In CallStart sched ->
    (acq_cancelled c ->
     (List.length (enqueued (log c'))
        <= List.length (enqueued (log c)) + acq_pending c)%nat /\
     (acq_pending c <= 1)%nat) /\
    (proc_cancelled c ->
     (List.length (dequeued (log c'))
        <= List.length (dequeued (log c)) + proc_pending c)%nat /\
     (proc_pending c <= 1)%nat).
Proof.
  intros pb sched c c' Hrun Hno.
  destruct (run_latency pb sched c c' Hrun Hno) as [Ha Hp].
  split; intros Hc.
  - specialize (Ha Hc). split; [lia|].
    unfold acq_pending. destruct (acq_at c) as [[]|]; lia.
  - specialize (Hp Hc). split; [lia|].
    unfold proc_pending. destruct (proc_at c) as [[]|]; lia.
Qed.

Lemma X17_cancellation_takes_one_record_witness :
  exists c c',
    run returns (put_schedule ++ [CallStop]) (Client_new demo_device)
      = Some c /\
    run returns [AcqStep; AcqStep; MainStep] c = Some c' /\
    List.length (enqueued (log c)) = 0%nat /\
    List.length (enqueued (log c')) = 1%nat /\
    (List.length (enqueued (log c'))
       <= List.length (enqueued (log c)) + acq_pending c)%nat.
Proof.
  eexists. eexists.
  split; [vm_compute; reflexivity|].
  split; [vm_compute; reflexivity|].
  split; [reflexivity|]. split; [reflexivity|].
  match goal with
  | |- (Datatypes.length (enqueued (log ?c')) <=
        Datatypes.length (enqueued (log ?c)) + _)%nat =>
      refine (proj1 (proj1 (X17_cancellation_takes_one_record returns
                [AcqStep; AcqStep; MainStep] c c'
                ltac:(vm_compute; reflexivity) _) eq_refl))
  end.
  simpl. intuition discriminate.
Defined.

(** X18.  When [stop_acquisition] waits in [_acq_process.join()], the
    producer is inside [put] on a full queue and the processing thread has
    terminated, no thread can take a step: the call never returns.  With a
    device that keeps delivering, such a state is reached when the
    consumer's [get] times out before the first record arrives, whatever the
    processor does. *)
Theorem X18_full_queue_without_consumer_blocks_stop :
  forall (pb : list Z -> Z -> bool),
    (forall c, jammed c -> forall a, step pb a c = None) /\
    (exists c,
        run pb jam_schedule (Client_new steady_device) = Some c /\
        jammed c /\ proc_at c = Some ProcDone /\
        List.length (items (_process_queue c)) = 3%nat).
Proof.
  intros pb. split.
  - intros c (Hm & (w & v & k & Ew & Hpc) & Hfull & Hj) a.
    unfold proc_joined in Hj.
    destruct (_process_thread c) as [th|] eqn:Eth; [|contradiction].
    destruct a; unfold step; rewrite ?Hm, ?Ew, ?Eth, ?Hpc; try reflexivity.
    + unfold stop_acquisition_next, attr, bind, block. rewrite Ew, Hpc.
      reflexivity.
    + unfold _acquisition_loop, queue_put, bind, gets, block.
      rewrite Hfull. reflexivity.
    + destruct (at_pc th); try discriminate Hj; reflexivity.
    + destruct (at_pc th); try discriminate Hj; reflexivity.
  - eexists. split; [vm_compute; reflexivity|].
    split; [|split; reflexivity].
    split; [reflexivity|]. split; [|split; reflexivity].
    eexists. exists [0], 3. split; reflexivity.
Qed.

Lemma X18_full_queue_without_consumer_blocks_stop_witness :
  exists c,
    run returns jam_schedule (Client_new steady_device) = Some c /\
    step returns MainStep c = None /\ step returns AcqStep c = None /\
    step returns ProcTimeout c = None.
Proof.
  destruct (X18_full_queue_without_consumer_blocks_stop returns)
    as [Hno (c & Hrun & Hj & _)].
  exists c. split; [exact Hrun|].
  split; [|split]; apply Hno; exact Hj.
Defined.

(** X19.  When [letter_info] returns, the letters, times and target types
    are those of the triggers whose letter is not a non-letter label, in
    order, each with the target type found at its own position in
    [target_info]; the letters and times pair up to the filtered triggers;
    no returned letter is a non-letter label and each is a valid target.
    It does return when no kept trigger stands beyond the end of
    [target_info] and every kept letter is a valid target. *)
Theorem X19_letter_info_returns :
  forall (T : Type) (self : CopyPhrase.CopyPhraseWrapper)
         (triggers : list (string * T)) (target_info : list string),
    (forall letters times target_types,
        CopyPhrase.letter_info self triggers target_info
          = CopyPhrase.Return (letters, times, target_types) ->
        letters = map CopyPhrase.letter_of
                      (CopyPhrase.kept self triggers target_info) /\
        times = map CopyPhrase.time_of
                    (CopyPhrase.kept self triggers target_info) /\
        target_types = map CopyPhrase.target_of
                           (CopyPhrase.kept self triggers target_info) /\
        combine letters times = CopyPhrase.letters_only self triggers /\
        Forall (fun l => ~ In l (CopyPhrase.nonletters self) /\
                         In l (CopyPhrase.valid_targets self)) letters) /\
    (~ CopyPhrase.out_of_range self target_info 0 triggers ->
     (forall letter stamp,
         In (letter, stamp) triggers ->
         CopyPhrase.is_letter self letter = true ->
         In letter (CopyPhrase.valid_targets self)) ->
     exists r,
       CopyPhrase.letter_info self triggers target_info
         = CopyPhrase.Return r).
Proof.
  intros T self triggers target_info. split.
  - intros letters times target_types. unfold CopyPhrase.letter_info.
    destruct (CopyPhrase.letter_info_loop self target_info 0 triggers
                [] [] []) as [[[ls ts] tys]|e] eqn:E; [|discriminate].
    destruct (CopyPhrase.issubset ls (CopyPhrase.valid_targets self))
      eqn:Hsub; simpl; [|discriminate].
    intros R. injection R as <- <- <-.
    destruct (loop_returns T self _ _ _ _ _ _ _ _ _ E) as (E1 & E2 & E3).
    destruct (loop_letters T self _ _ _ _ _ _ _ _ _ E) as (F1 & F2).
    simpl in E1, E2, E3, F1, F2.
    split; [exact E1|]. split; [exact E2|]. split; [exact E3|].
    split; [rewrite F1, F2; apply combine_fst_snd|].
    apply Forall_forall. intros l Hl. split.
    + rewrite F1 in Hl. apply In_letters_only in Hl.
      apply is_letter_true. exact (proj2 Hl).
    + exact (proj1 (issubset_true _ _) Hsub l Hl).
  - intros Hin Hvalid. unfold CopyPhrase.letter_info.
    destruct (loop_total T self target_info triggers 0 [] [] [] Hin)
      as ([[ls ts] tys] & E).
    rewrite E.
    destruct (loop_letters T self _ _ _ _ _ _ _ _ _ E) as (F1 & _).
    simpl in F1.
    assert (Hsub : CopyPhrase.issubset ls (CopyPhrase.valid_targets self)
                   = true).
    { apply issubset_true. intros x Hx. rewrite F1 in Hx.
      apply In_letters_only in Hx. destruct Hx as [[s Hs] Hl].
      exact (Hvalid x s Hs Hl). }
    rewrite Hsub. simpl. eauto.
Qed.

Lemma X19_letter_info_returns_witness :
  CopyPhrase.letter_info (CopyPhrase.__init__ abc) flashes flash_targets
    = CopyPhrase.Return (["B"; "A"; "C"]%string, [2; 3; 4],
                         ["target"; "nontarget"; "nontarget"]%string) /\
  combine ["B"; "A"; "C"]%string [2; 3; 4]
    = CopyPhrase.letters_only (CopyPhrase.__init__ abc) flashes.
Proof.
  split; [reflexivity|].
  exact (proj1 (proj2 (proj2 (proj2
           (proj1 (X19_letter_info_returns Z (CopyPhrase.__init__ abc)
                     flashes flash_targets) _ _ _ eq_refl))))).
Defined.

(** X20.  [letter_info] raises [IndexError] exactly when some trigger whose
    letter is not a non-letter label stands at a position at or beyond the
    length of [target_info], whether or not the letters are valid targets;
    triggers with non-letter labels may stand beyond that length. *)
Theorem X20_letter_info_index_error :
  forall (T : Type) (self : CopyPhrase.CopyPhraseWrapper)
         (triggers : list (string * T)) (target_info : list string),
    CopyPhrase.letter_info self triggers target_info
      = CopyPhrase.Throw CopyPhrase.IndexError <->
    exists j letter stamp,
      nth_error triggers j = Some (letter, stamp) /\
      ~ In letter (CopyPhrase.nonletters self) /\
      (List.length target_info <= j)%nat.
Proof.
  intros T self triggers target_info. unfold CopyPhrase.letter_info. split.
  - destruct (CopyPhrase.letter_info_loop self target_info 0 triggers
                [] [] []) as [[[ls ts] tys]|e] eqn:E.
    + destruct (negb _); discriminate.
    + intros _. apply loop_throws in E.
      destruct E as (_ & j & l & s & Hj & Hl & Hr).
      exists j, l, s. split; [exact Hj|].
      split; [apply is_letter_true; exact Hl | exact Hr].
  - intros (j & l & s & Hj & Hl & Hr).
    rewrite (loop_out_of_range T self target_info triggers 0 [] [] []);
      [reflexivity|].
    exists j, l, s. split; [exact Hj|].
    split; [apply is_letter_true; exact Hl | exact Hr].
Qed.

Lemma X20_letter_info_index_error_witness :
  CopyPhrase.letter_info (CopyPhrase.__init__ abc)
    [("A", 1); ("Z", 2); ("+", 3)]%string ["nontarget"]%string
    = CopyPhrase.Throw CopyPhrase.IndexError /\
  CopyPhrase.letter_info (CopyPhrase.__init__ abc)
    [("A", 1); ("+", 3)]%string ["target"]%string
    = CopyPhrase.Return (["A"]%string, [1], ["target"]%string).
Proof.
  split; [|reflexivity].
  apply (proj2 (X20_letter_info_index_error Z (CopyPhrase.__init__ abc)
                  [("A", 1); ("Z", 2); ("+", 3)]%string
                  ["nontarget"]%string)).
  exists 1%nat, "Z"%string, 2. split; [reflexivity|]. split; [|simpl; lia].
  simpl. intros [H|[H|[H|[]]]]; discriminate H.
Defined.

(** X21.  When [letter_info] raises its [Exception], no kept trigger stands
    beyond the end of [target_info], and the set the exception reports is
    not empty, has no duplicates and holds exactly the kept letters that are
    not valid targets.  It does raise it when no kept trigger stands beyond
    the end of [target_info] and some kept letter is not a valid target. *)
Theorem X21_letter_info_unexpected_letters :
  forall (T : Type) (self : CopyPhrase.CopyPhraseWrapper)
         (triggers : list (string * T)) (target_info : list string),
    (forall invalid,
        CopyPhrase.letter_info self triggers target_info
          = CopyPhrase.Throw (CopyPhrase.Exception invalid) ->
        ~ CopyPhrase.out_of_range self target_info 0 triggers /\
        invalid <> [] /\ NoDup invalid /\
        (forall x,
            In x invalid <->
            (exists stamp, In (x, stamp) triggers) /\
            ~ In x (CopyPhrase.nonletters self) /\
            ~ In x (CopyPhrase.valid_targets self))) /\
    (~ CopyPhrase.out_of_range self target_info 0 triggers ->
     (exists letter stamp,
         In (letter, stamp) triggers /\
         ~ In letter (CopyPhrase.nonletters self) /\
         ~ In letter (CopyPhrase.valid_targets self)) ->
     exists invalid,
       CopyPhrase.letter_info self triggers target_info
         = CopyPhrase.Throw (CopyPhrase.Exception invalid)).
Proof.
  intros T self triggers target_info.
  assert (Hmem : forall ls,
            ls = map fst (CopyPhrase.letters_only self triggers) ->
            forall x,
              In x (CopyPhrase.difference ls (CopyPhrase.valid_targets self))
              <->
              (exists stamp, In (x, stamp) triggers) /\
              ~ In x (CopyPhrase.nonletters self) /\
              ~ In x (CopyPhrase.valid_targets self)).
  { intros ls -> x. rewrite In_difference, In_letters_only, is_letter_true.
    tauto. }
  split.
  - intros invalid. unfold CopyPhrase.letter_info.
    destruct (CopyPhrase.letter_info_loop self target_info 0 triggers
                [] [] []) as [[[ls ts] tys]|e] eqn:E.
    + destruct (loop_letters T self _ _ _ _ _ _ _ _ _ E) as (F1 & _).
      simpl in F1.
      destruct (CopyPhrase.issubset ls (CopyPhrase.valid_targets self))
        eqn:Hsub; simpl; [discriminate|].
      intros R. injection R as <-.
      split.
      { intros Hout.
        rewrite (loop_out_of_range T self _ _ _ _ _ _ Hout) in E.
        discriminate E. }
      split.
      { intros Hnil.
        assert (Hall : CopyPhrase.issubset ls (CopyPhrase.valid_targets self)
                       = true).
        { apply issubset_true. intros x Hx.
          destruct (in_dec string_dec x (CopyPhrase.valid_targets self))
            as [Hv|Hv]; [exact Hv|].
          assert (In x (CopyPhrase.difference ls
                          (CopyPhrase.valid_targets self)))
            by (apply In_difference; split; assumption).
          rewrite Hnil in H. contradiction. }
        congruence. }
      split; [apply NoDup_nodup|].
      exact (Hmem ls F1).
    + intros R. apply loop_throws in E. destruct E as [-> _]. discriminate R.
  - intros Hin (l & s & Hs & Hl & Hv). unfold CopyPhrase.letter_info.
    destruct (loop_total T self target_info triggers 0 [] [] [] Hin)
      as ([[ls ts] tys] & E).
    rewrite E.
    destruct (loop_letters T self _ _ _ _ _ _ _ _ _ E) as (F1 & _).
    simpl in F1.
    destruct (CopyPhrase.issubset ls (CopyPhrase.valid_targets self))
      eqn:Hsub; simpl; [|eauto].
    exfalso. apply Hv. apply (proj1 (issubset_true _ _) Hsub).
    rewrite F1. apply In_letters_only.
    split; [exists s; exact Hs | apply is_letter_true; exact Hl].
Qed.

Lemma X21_letter_info_unexpected_letters_witness :
  CopyPhrase.letter_info (CopyPhrase.__init__ abc)
    [("A", 1); ("Z", 2); ("+", 3); ("Z", 4)]%string
    ["nontarget"; "target"; "fixation"; "target"]%string
    = CopyPhrase.Throw (CopyPhrase.Exception ["Z"]%string) /\
  NoDup ["Z"]%string.
Proof.
  split; [reflexivity|].
  exact (proj1 (proj2 (proj2
           (proj1 (X21_letter_info_unexpected_letters Z
                     (CopyPhrase.__init__ abc)
                     [("A", 1); ("Z", 2); ("+", 3); ("Z", 4)]%string
                     ["nontarget"; "target"; "fixation"; "target"]%string)
                  ["Z"]%string eq_refl)))).
Defined.

(** X22.  [letter_info] is idempotent: given the letters and times it
    returned, paired up, and the target types it returned, it returns the
    same three lists. *)
Theorem X22_letter_info_idempotent :
  forall (T : Type) (self : CopyPhrase.CopyPhraseWrapper)
         (triggers : list (string * T)) (target_info : list string)
         (letters : list string) (times : list T)
         (target_types : list string),
    CopyPhrase.letter_info self triggers target_info
      = CopyPhrase.Return (letters, times, target_types) ->
    CopyPhrase.letter_info self (combine letters times) target_types
      = CopyPhrase.Return (letters, times, target_types).
Proof.
  intros T self triggers target_info letters times target_types.
  unfold CopyPhrase.letter_info at 1.
  destruct (CopyPhrase.letter_info_loop self target_info 0 triggers
              [] [] []) as [[[ls ts] tys]|e] eqn:E; [|discriminate].
  destruct (CopyPhrase.issubset ls (CopyPhrase.valid_targets self))
    eqn:Hsub; simpl; [|discriminate].
  intros R. injection R as <- <- <-.
  destruct (loop_returns T self _ _ _ _ _ _ _ _ _ E) as (E1 & E2 & E3).
  destruct (loop_letters T self _ _ _ _ _ _ _ _ _ E) as (F1 & F2).
  simpl in E1, E2, E3, F1, F2.
  assert (Hc : combine ls ts = CopyPhrase.letters_only self triggers)
    by (rewrite F1, F2; apply combine_fst_snd).
  assert (H1 : Forall (fun tr => CopyPhrase.is_letter self (fst tr) = true)
                      (combine ls ts)).
  { rewrite Hc. unfold CopyPhrase.letters_only.
    apply Forall_forall. intros x Hx. apply filter_In in Hx. exact (proj2 Hx). }
  assert (H2 : List.length (combine ls ts) = List.length tys).
  { rewrite Hc, E3, <- (length_map fst), <- F1, E1, !length_map.
    reflexivity. }
  pose proof (loop_keeps_letters T self [] tys (combine ls ts) [] [] [] H1 H2)
    as K.
  cbn [app List.length] in K.
  unfold CopyPhrase.letter_info. rewrite K.
  rewrite Hc, <- F1, <- F2, Hsub. reflexivity.
Qed.

Lemma X22_letter_info_idempotent_witness :
  CopyPhrase.letter_info (CopyPhrase.__init__ abc)
    (combine ["B"; "A"; "C"]%string [2; 3; 4])
    ["target"; "nontarget"; "nontarget"]%string
    = CopyPhrase.Return (["B"; "A"; "C"]%string, [2; 3; 4],
                         ["target"; "nontarget"; "nontarget"]%string).
Proof.
  exact (X22_letter_info_idempotent Z (CopyPhrase.__init__ abc)
           flashes flash_targets _ _ _ eq_refl).
Defined.

(** X23.  For a language model output with no symbol twice: [prior] has one
    entry for each alphabet letter that is among the output's symbols, in
    alphabet order, whatever the order of the output, and every entry is the
    probability of an alphabet letter.  When every alphabet letter is among
    the symbols, [prior] is as long as the alphabet and its entry [i] is the
    probability of letter [i]; when one is missing, [prior] is shorter than
    the alphabet. *)
Theorem X23_prior_alignment :
  forall (T : Type) (alp : list string) (lm_letter_prior : list (string * T)),
    NoDup (map fst lm_letter_prior) ->
    List.length (CopyPhrase.prior alp lm_letter_prior) =
      List.length (filter (fun a => CopyPhrase.mem a (map fst lm_letter_prior))
                          alp) /\
    (forall p, In p (CopyPhrase.prior alp lm_letter_prior) ->
       exists a, In a alp /\ In (a, p) lm_letter_prior) /\
    ((forall a, In a alp -> In a (map fst lm_letter_prior)) ->
     List.length (CopyPhrase.prior alp lm_letter_prior) = List.length alp /\
     forall i a,
       nth_error alp i = Some a ->
       exists p, nth_error (CopyPhrase.prior alp lm_letter_prior) i = Some p /\
                 In (a, p) lm_letter_prior) /\
    ((exists a, In a alp /\ ~ In a (map fst lm_letter_prior)) ->
     (List.length (CopyPhrase.prior alp lm_letter_prior)
        < List.length alp)%nat).
Proof.
  intros T alp lm Hnd.
  assert (Hsel : forall a,
            (In a (map fst lm) /\ CopyPhrase.mem a (map fst lm) = true /\
             exists p, CopyPhrase.selected a lm = [p] /\ In (a, p) lm) \/
            (~ In a (map fst lm) /\ CopyPhrase.mem a (map fst lm) = false /\
             CopyPhrase.selected a lm = [])).
  { intros a. destruct (in_dec string_dec a (map fst lm)) as [Hin|Hin].
    - left. split; [exact Hin|]. split; [apply mem_In; exact Hin|].
      apply selected_present; assumption.
    - right. split; [exact Hin|]. split; [apply mem_false; exact Hin|].
      apply selected_absent. exact Hin. }
  assert (Hle : forall l : list string,
            (List.length (filter (fun a => CopyPhrase.mem a (map fst lm)) l)
               <= List.length l)%nat).
  { intros l. induction l as [|x l IH]; simpl; [lia|].
    destruct (CopyPhrase.mem x (map fst lm)); simpl; lia. }
  split; [|split; [|split]].
  - induction alp as [|a alp IH]; [reflexivity|].
    rewrite prior_cons, length_app. cbn [filter].
    destruct (Hsel a) as [(_ & -> & p & -> & _) | (_ & -> & ->)];
      simpl; rewrite IH; reflexivity.
  - induction alp as [|a alp IH]; [intros p []|].
    intros p. rewrite prior_cons, in_app_iff. intros [Hp|Hp].
    + destruct (Hsel a) as [(_ & _ & q & E & Hq) | (_ & _ & E)];
        rewrite E in Hp; [|contradiction].
      destruct Hp as [<-|[]]. exists a. split; [left; reflexivity | exact Hq].
    + destruct (IH p Hp) as (b & Hb & Hq).
      exists b. split; [right; exact Hb | exact Hq].
  - induction alp as [|a alp IH]; intros Hall.
    + split; [reflexivity|]. intros [|i] b; discriminate.
    + destruct IH as [IHl IHn]; [intros b Hb; apply Hall; right; exact Hb|].
      rewrite prior_cons.
      destruct (Hsel a) as [(_ & _ & p & E & Hp) | (Hno & _)];
        [|contradiction Hno; apply Hall; left; reflexivity].
      rewrite E. split; [simpl; rewrite IHl; reflexivity|].
      intros [|i] b Hb; simpl in Hb.
      * injection Hb as <-. exists p. split; [reflexivity | exact Hp].
      * exact (IHn i b Hb).
  - intros (a & Ha & Hno).
    assert (Hlen : forall l : list string,
              List.length (CopyPhrase.prior l lm) =
              List.length (filter (fun x => CopyPhrase.mem x (map fst lm)) l)).
    { intros l. induction l as [|x l IH]; [reflexivity|].
      rewrite prior_cons, length_app. cbn [filter].
      destruct (Hsel x) as [(_ & -> & p & -> & _) | (_ & -> & ->)];
        simpl; rewrite IH; reflexivity. }
    rewrite Hlen. clear Hlen.
    induction alp as [|x alp IH]; [contradiction|].
    cbn [filter]. destruct Ha as [->|Ha].
    + apply mem_false in Hno. rewrite Hno. simpl.
      pose proof (Hle alp). lia.
    + specialize (IH Ha).
      destruct (CopyPhrase.mem x (map fst lm)); simpl; lia.
Qed.

Lemma X23_prior_alignment_witness :
  CopyPhrase.prior abc lm_output = [50; 5; 30; 5] /\
  List.length (CopyPhrase.prior abc lm_output) = List.length abc /\
  (List.length (CopyPhrase.prior ("Z" :: abc)%string lm_output)
     < List.length ("Z" :: abc)%string)%nat.
Proof.
  assert (Hnd : NoDup (map fst lm_output)).
  { repeat constructor; simpl; intuition discriminate. }
  split; [reflexivity|].
  split.
  - refine (proj1 (proj1 (proj2 (proj2
              (X23_prior_alignment Z abc lm_output Hnd))) _)).
    intros a Ha. simpl in Ha. simpl.
    destruct Ha as [<-|[<-|[<-|[<-|[]]]]]; auto 10.
  - refine (proj2 (proj2 (proj2
              (X23_prior_alignment Z ("Z" :: abc)%string lm_output Hnd))) _).
    exists "Z"%string. split; [left; reflexivity|].
    simpl. intuition discriminate.
Defined.
